(** * Attribute reconciliation of the LDAP Terraform provider

    A shallow embedding of the provider's [ldap_object] and
    [ldap_object_attributes] resources (package [provider]) and proofs about
    the two diff engines, the value codec, the read-back and the not-found
    handling.

    Go strings are byte strings: they are Rocq [string]s.  A Go map is a
    [gmap]; the SDK's [schema.Set] is the map from hash code to item that it
    is in Go.  The order in which a Go [range] visits a map is left open: it
    is a parameter of the development. *)

From Stdlib Require Import ZArith Ascii String.
From stdpp Require Import base option list gmap sets strings pretty sorting.

Local Open Scope string_scope.
Local Open Scope Z_scope.

(** ** Bytes and strings *)

Definition byte_of (a : ascii) : Z := Z.of_N (N_of_ascii a).
Definition chr (b : Z) : ascii := ascii_of_N (Z.to_N b).
Definition bytes (s : string) : list Z := byte_of <$> list_ascii_of_string s.
Definition of_bytes (l : list Z) : string := string_of_list_ascii (chr <$> l).

(** The one-byte string of the double quote, U+0022. *)
Definition doubleQuote : string := String (chr 34) EmptyString.

(** ** hash/crc32: the IEEE checksum, bit by bit (the polynomial is the
    reversed 0xedb88320 of [crc32.IEEE]). *)

Definition crc32_shift (c : Z) : Z :=
  if Z.testbit c 0 then Z.lxor (Z.shiftr c 1) 0xEDB88320 else Z.shiftr c 1.

Definition crc32_update (c b : Z) : Z := Nat.iter 8 crc32_shift (Z.lxor c b).

Definition ChecksumIEEE (data : string) : Z :=
  Z.lxor (fold_left crc32_update (bytes data) 0xFFFFFFFF) 0xFFFFFFFF.

(** ** unicode/utf8 *)

Definition RuneError : Z := 0xFFFD.
Definition RuneSelf : Z := 0x80.

Definition between (lo hi b : Z) : bool := (lo <=? b)%Z && (b <=? hi)%Z.

(** [utf8.DecodeRuneInString]: the rune at the head of [s] and its width;
    [(RuneError, 1)] for an invalid or truncated encoding. *)
Definition DecodeRuneInString (s : list Z) : Z * nat :=
  match s with
  | [] => (RuneError, 0%nat)
  | s0 :: t =>
    if (s0 <? RuneSelf)%Z then (s0, 1%nat)
    else if (s0 <? 0xC2)%Z || (0xF4 <? s0)%Z then (RuneError, 1%nat)
    else
      let lo := if (s0 =? 0xE0)%Z then 0xA0%Z
                else if (s0 =? 0xF0)%Z then 0x90%Z else 0x80%Z in
      let hi := if (s0 =? 0xED)%Z then 0x9F%Z
                else if (s0 =? 0xF4)%Z then 0x8F%Z else 0xBF%Z in
      match t with
      | [] => (RuneError, 1%nat)
      | s1 :: t1 =>
        if negb (between lo hi s1) then (RuneError, 1%nat)
        else if (s0 <? 0xE0)%Z then
          (Z.lor (Z.shiftl (Z.land s0 0x1F) 6) (Z.land s1 0x3F), 2%nat)
        else
          match t1 with
          | [] => (RuneError, 1%nat)
          | s2 :: t2 =>
            if negb (between 0x80 0xBF s2) then (RuneError, 1%nat)
            else if (s0 <? 0xF0)%Z then
              (Z.lor (Z.shiftl (Z.land s0 0x0F) 12)
                 (Z.lor (Z.shiftl (Z.land s1 0x3F) 6) (Z.land s2 0x3F)), 3%nat)
            else
              match t2 with
              | [] => (RuneError, 1%nat)
              | s3 :: _ =>
                if negb (between 0x80 0xBF s3) then (RuneError, 1%nat)
                else
                  (Z.lor (Z.shiftl (Z.land s0 0x07) 18)
                     (Z.lor (Z.shiftl (Z.land s1 0x3F) 12)
                        (Z.lor (Z.shiftl (Z.land s2 0x3F) 6) (Z.land s3 0x3F))),
                   4%nat)
              end
          end
      end
  end.

(** [utf8.AppendRune]: the UTF-8 encoding of a rune; surrogates and values
    beyond U+10FFFF are written as U+FFFD. *)
Definition AppendRune (r : Z) : list Z :=
  let three (r : Z) :=
    [Z.lor 0xE0 (Z.shiftr r 12);
     Z.lor 0x80 (Z.land (Z.shiftr r 6) 0x3F);
     Z.lor 0x80 (Z.land r 0x3F)] in
  if (r <? 0)%Z then three RuneError
  else if (r <? 0x80)%Z then [r]
  else if (r <? 0x800)%Z then
    [Z.lor 0xC0 (Z.shiftr r 6); Z.lor 0x80 (Z.land r 0x3F)]
  else if (0x10FFFF <? r)%Z || between 0xD800 0xDFFF r then three RuneError
  else if (r <? 0x10000)%Z then three r
  else
    [Z.lor 0xF0 (Z.shiftr r 18);
     Z.lor 0x80 (Z.land (Z.shiftr r 12) 0x3F);
     Z.lor 0x80 (Z.land (Z.shiftr r 6) 0x3F);
     Z.lor 0x80 (Z.land r 0x3F)].

(** ** What the Go runtime and its libraries leave open

    - [isPrintTable]: [strconv.IsPrint] on runes above U+00FF, which Go
      decides with its Unicode tables;
    - [range_order]: the order in which the [range] statement at a given
      place of the program visits the keys of a map (Go leaves it
      unspecified; it is some arrangement of the keys);
    - [utf16le]: the [String] method of the encoder
      [unicode.UTF16(unicode.LittleEndian, unicode.IgnoreBOM).NewEncoder()],
      with the string it returns and whether it reports an error. *)
Class GoRuntime := {
  isPrintTable : Z → bool;
  range_order : nat → list string → list string;
  range_order_perm : ∀ site l, range_order site l ≡ₚ l;
  utf16le : string → string * bool;
}.

(** ** strconv.Quote, as [fmt]'s verb %q applies it to a string *)

Section quote.
Context `{!GoRuntime}.

Definition IsPrint (r : Z) : bool :=
  if (r <=? 0xFF)%Z then
    if between 0x20 0x7E r then true
    else if (0xA1 <=? r)%Z then negb (r =? 0xAD)%Z
    else false
  else isPrintTable r.

Definition lowerhex (d : Z) : Z :=
  if (d <? 10)%Z then (48 + d)%Z else (87 + d)%Z.

Fixpoint hexdigits (n : nat) (r : Z) : list Z :=
  match n with
  | O => []
  | S n' => hexdigits n' (Z.shiftr r 4) ++ [lowerhex (Z.land r 0xF)]
  end.

Definition appendEscapedRune (r : Z) : list Z :=
  if (r =? 34)%Z || (r =? 92)%Z then [92%Z; r]
  else if IsPrint r then AppendRune r
  else if (r =? 7)%Z then bytes "\a"
  else if (r =? 8)%Z then bytes "\b"
  else if (r =? 12)%Z then bytes "\f"
  else if (r =? 10)%Z then bytes "\n"
  else if (r =? 13)%Z then bytes "\r"
  else if (r =? 9)%Z then bytes "\t"
  else if (r =? 11)%Z then bytes "\v"
  else if (r <? 32)%Z || (r =? 0x7F)%Z then bytes "\x" ++ hexdigits 2 r
  else if (r <? 0x10000)%Z then bytes "\u" ++ hexdigits 4 r
  else bytes "\U" ++ hexdigits 8 r.

Fixpoint quoteBody (fuel : nat) (s : list Z) : list Z :=
  match fuel, s with
  | S fuel', s0 :: _ =>
    let '(r, width) :=
      if (s0 <? RuneSelf)%Z then (s0, 1%nat) else DecodeRuneInString s in
    (if (width =? 1)%nat && (r =? RuneError)%Z
     then bytes "\x" ++ hexdigits 2 s0
     else appendEscapedRune r) ++ quoteBody fuel' (drop width s)
  | _, _ => []
  end.

Definition Quote (s : string) : string :=
  of_bytes ([34%Z] ++ quoteBody (String.length s) (bytes s) ++ [34%Z]).
End quote.

(** ** Go's [int], 64 bits wide, with its wrap-around *)

Definition int (z : Z) : Z :=
  let m := z mod 2 ^ 64 in if m <? 2 ^ 63 then m else m - 2 ^ 64.

(** [strconv.Itoa] *)
Definition Itoa (n : Z) : string := pretty n.

(** [sort.StringSlice]'s order: Go's [<] on strings compares them byte by
    byte. *)
Definition string_le (x y : string) : Prop := String.leb x y = true.

#[global] Instance string_le_dec : RelDecision string_le.
Proof. intros x y. unfold string_le. apply _. Defined.

(** ** helper/schema: the [Set] of the Terraform SDK

    [type Set struct { F SchemaSetFunc; m map[string]interface{} }]: the items
    of the set, each under the decimal rendering of its hash code.  The map
    [m] is the [gmap]; [F] is passed where the SDK reads it ([Add]). *)
Module schema.
Section set.
Context {A : Type}.

Definition hash (F : A → Z) (item : A) : string :=
  let code := F item in
  let code := if code <? 0 then int (- code) else code in
  Itoa code.

Definition Add (F : A → Z) (item : A) (s : gmap string A) : gmap string A :=
  let code := hash F item in
  match s !! code with
  | Some _ => s
  | None => <[code := item]> s
  end.

Definition Len (s : gmap string A) : nat := size s.

Definition listCode (s : gmap string A) : list string :=
  merge_sort string_le (fst <$> map_to_list s).

Definition List (s : gmap string A) : list A :=
  omap (λ k, s !! k) (listCode s).

Definition Difference (s other : gmap string A) : gmap string A :=
  filter (λ kv, ¬ is_Some (other !! kv.1)) s.

Definition Intersection (s other : gmap string A) : gmap string A :=
  filter (λ kv, is_Some (other !! kv.1)) s.

Definition Union (s other : gmap string A) : gmap string A := other ∪ s.

Definition Equal `{EqDecision A} (s other : gmap string A) : bool :=
  bool_decide (s = other).
End set.
End schema.

(** ** util: the set of names

    Package [util] of the repository is not among the sources.  The spec's
    section 4.3 has [Removed], [Added], [Kept] and [Changed] as sets of
    attribute names. *)
Module util.
(** Modelled from the spec: [util.NewSet], missing from the sources; the
    empty set of names. *)
Definition NewSet : gset string := ∅.

(** Modelled from the spec: the method [Add] of the set, missing from the
    sources; the set with the name added. *)
Definition Add (item : string) (set : gset string) : gset string := {[item]} ∪ set.

(** Modelled from the spec: the method [Contains] of the set, missing from
    the sources; whether the name is a member. *)
Definition Contains (item : string) (set : gset string) : bool :=
  bool_decide (item ∈ set).

(** Modelled from the spec: the method [List] of the set, missing from the
    sources; the members, each once, in an order that is left open (the
    [range_order] of the place that calls it). *)
Definition List `{!GoRuntime} (site : nat) (set : gset string) : list string :=
  range_order site (elements set).
End util.

(** ** go-ldap: requests *)
Module ldap.
Inductive Operation := AddAttribute | DeleteAttribute | ReplaceAttribute.

Record PartialAttribute := { Type_ : string; Vals : list string }.

Record Change := { Operation_ : Operation; Modification : PartialAttribute }.

Record ModifyRequest := { DN : string; Changes : list Change }.

Definition NewModifyRequest (dn : string) : ModifyRequest :=
  {| DN := dn; Changes := [] |}.

Definition appendChange (req : ModifyRequest) (operation : Operation)
    (attrType : string) (attrVals : list string) : ModifyRequest :=
  {| DN := DN req;
     Changes := Changes req ++
       [{| Operation_ := operation;
           Modification := {| Type_ := attrType; Vals := attrVals |} |}] |}.

Definition Add (req : ModifyRequest) := appendChange req AddAttribute.
Definition Delete (req : ModifyRequest) := appendChange req DeleteAttribute.
Definition Replace (req : ModifyRequest) := appendChange req ReplaceAttribute.

(** [AddRequest]: the attributes of the entry to create, in the order
    [Attribute] appended them. *)
Record Attribute := { Attribute_Type : string; Attribute_Vals : list string }.

Record AddRequest := { AddRequest_DN : string; AddRequest_Attributes : list Attribute }.

Definition NewAddRequest (dn : string) : AddRequest :=
  {| AddRequest_DN := dn; AddRequest_Attributes := [] |}.

Definition Attribute_ (req : AddRequest) (attrType : string)
    (attrVals : list string) : AddRequest :=
  {| AddRequest_DN := AddRequest_DN req;
     AddRequest_Attributes := AddRequest_Attributes req ++
       [{| Attribute_Type := attrType; Attribute_Vals := attrVals |}] |}.

Inductive Scope := ScopeBaseObject | ScopeSingleLevel | ScopeWholeSubtree.

Record SearchRequest := {
  BaseDN : string;
  Scope_ : Scope;
  Filter : string;
  SearchRequest_Attributes : list string;
}.

Record EntryAttribute := { Name : string; Values : list string }.

Record Entry := { Entry_DN : string; Attributes : list EntryAttribute }.

Record SearchResult := { Entries : list Entry }.

(** for _, attr := range e.Attributes { if attr.Name == attribute
    { return attr.Values } }; return []string{} *)
Fixpoint GetAttributeValues (attrs : list EntryAttribute) (attribute : string)
    : list string :=
  match attrs with
  | [] => []
  | attr :: attrs' =>
    if decide (Name attr = attribute) then Values attr
    else GetAttributeValues attrs' attribute
  end.

(** Go's [error] values as the provider tells them apart: a [*ldap.Error]
    with its result code, or an error of another type. *)
Inductive error :=
| Error (ResultCode : Z) (text : string)
| OtherError (text : string).

Inductive Request :=
| SearchOf (r : SearchRequest)
| AddOf (r : AddRequest)
| ModifyOf (r : ModifyRequest)
| DelOf (dn : string).

(** [*ldap.Conn], seen from the provider: what the directory answers to
    a request, given the requests this process sent before it. *)
Record Conn := {
  Search : list Request → SearchRequest → SearchResult + error;
  Add_ : list Request → AddRequest → option error;
  Modify : list Request → ModifyRequest → option error;
  Del : list Request → string → option error;
}.

#[global] Instance Operation_eq_dec : EqDecision Operation.
Proof. solve_decision. Defined.
#[global] Instance PartialAttribute_eq_dec : EqDecision PartialAttribute.
Proof. solve_decision. Defined.
#[global] Instance Change_eq_dec : EqDecision Change.
Proof. solve_decision. Defined.
End ldap.

(** The three directives, as the changes of a modify request. *)
Definition AddChange (name : string) (values : list string) : ldap.Change :=
  {| ldap.Operation_ := ldap.AddAttribute;
     ldap.Modification := {| ldap.Type_ := name; ldap.Vals := values |} |}.
Definition DeleteChange (name : string) (values : list string) : ldap.Change :=
  {| ldap.Operation_ := ldap.DeleteAttribute;
     ldap.Modification := {| ldap.Type_ := name; ldap.Vals := values |} |}.
Definition ReplaceChange (name : string) (values : list string) : ldap.Change :=
  {| ldap.Operation_ := ldap.ReplaceAttribute;
     ldap.Modification := {| ldap.Type_ := name; ldap.Vals := values |} |}.

(** ** The attribute sets

    An item of the [attributes] set is a [map[string]interface{}] that the
    schema declares with exactly one entry ([MinItems: 1, MaxItems: 1]): a
    name and one string value.  A [range] over such a map visits that one
    entry. *)
Abbreviation Item := (string * string)%type.
Abbreviation AttributeSet := (gmap string Item).

Section provider.
Context `{!GoRuntime}.

(** computes the hash of the map representing an attribute in the
    attributes set *)
Definition attributeHash (m : Item) : Z :=
  let buffer := "map {" in
  let buffer := buffer +:+ (Quote m.1 +:+ " := " +:+ Quote m.2 +:+ ";") in
  let buffer := buffer +:+ "}" in
  let h := int (ChecksumIEEE buffer) in
  if 0 <=? h then h
  else if 0 <=? int (- h) then int (- h)
  else 0.

Definition toAttributeValue (name value : string) : string :=
  if decide (name = "unicodePwd") then
    let '(pwdEncoded, _) := utf16le (doubleQuote +:+ value +:+ doubleQuote) in
    pwdEncoded
  else value.

Fixpoint stringSliceContains (haystack : list string) (needle : string) : bool :=
  match haystack with
  | [] => false
  | h :: haystack' =>
    if decide (needle = h) then true else stringSliceContains haystack' needle
  end.

(** [for _, v := range l { for k := range v { set.Add(k) } }] *)
Definition namesOf (l : list Item) : gset string :=
  foldl (λ set v, util.Add v.1 set) util.NewSet l.

(** [values := []string{}; for _, m := range l { for mk, mv := range m {
    if k == mk { values = append(values, toAttributeValue(k, mv)) } } }] *)
Definition valuesOf (k : string) (l : list Item) : list string :=
  foldl (λ values m,
           if decide (k = m.1) then (values ++ [toAttributeValue k m.2])%list
           else values) [] l.

Definition shouldSkipAttribute (attributesToSkip attributesToSet : list string)
    (k : string) : bool :=
  if (0 <? length attributesToSet)%nat && negb (stringSliceContains attributesToSet k)
  then true
  else if (0 <? length attributesToSkip)%nat && stringSliceContains attributesToSkip k
  then true
  else false.

(** The full-ownership diff.  Its [error] result is always [nil]; the
    function is the modify request it leaves behind. *)
Definition computeAndAddDeltas (modify : ldap.ModifyRequest)
    (os ns : AttributeSet) (attributesToSkip attributesToSet : list string)
    : ldap.ModifyRequest :=
  let shouldSkipAttribute := shouldSkipAttribute attributesToSkip attributesToSet in
  (* names of removed attributes *)
  let rk := namesOf (schema.List (schema.Difference os ns)) in
  (* names of added attributes *)
  let ak := namesOf (schema.List (schema.Difference ns os)) in
  (* names of kept attributes *)
  let kk := namesOf (schema.List (schema.Intersection ns os)) in
  (* names of changed attributes *)
  let ck := util.NewSet in
  (* loop over remove attributes' names *)
  let '(modify, ck) :=
    foldl (λ '(modify, ck) k,
             if shouldSkipAttribute k then (modify, ck)
             else if negb (util.Contains k ak) && negb (util.Contains k kk)
             then (ldap.Delete modify k [], ck)
             else (modify, util.Add k ck))
          (modify, ck) (util.List 0 rk) in
  let '(modify, ck) :=
    foldl (λ '(modify, ck) k,
             if shouldSkipAttribute k then (modify, ck)
             else if negb (util.Contains k rk) && negb (util.Contains k kk)
             then (ldap.Add modify k (valuesOf k (schema.List ns)), ck)
             else (modify, util.Add k ck))
          (modify, ck) (util.List 1 ak) in
  (* now loop over changed attributes *)
  foldl (λ modify k,
           if shouldSkipAttribute k then modify
           else ldap.Replace modify k (valuesOf k (schema.List ns)))
        modify (util.List 2 ck).

(** The partial-ownership diff.  Its [error] result is always [nil]. *)
Definition computeAndAddAttributeDeltas (modify : ldap.ModifyRequest)
    (os ns : AttributeSet) : ldap.ModifyRequest :=
  let ra := schema.Difference os ns in (* removed attributes *)
  let rk := namesOf (schema.List ra) in (* names of removed attributes *)
  let aa := schema.Difference ns os in (* added attributes *)
  let ak := namesOf (schema.List aa) in (* names of added attributes *)
  (* loop over remove attributes' names *)
  let modify :=
    foldl (λ modify k, ldap.Delete modify k (valuesOf k (schema.List ra)))
          modify (util.List 3 rk) in
  foldl (λ modify k, ldap.Add modify k (valuesOf k (schema.List aa)))
        modify (util.List 4 ak).
End provider.

(** ** helper/schema: [ResourceData]

    [schema.HashString] is [hashcode.String]. *)
Definition HashString (v : string) : Z :=
  let v := int (ChecksumIEEE v) in
  if 0 <=? v then v
  else if 0 <=? int (- v) then int (- v)
  else 0.

(** A key of the resource with the three levels the SDK reads it at: the
    prior state and the planned value ([GetChange] returns the two), and what
    the provider wrote with [d.Set] ([Get] reads the written value when there
    is one, the planned value otherwise). *)
Record Field (A : Type) := { prior : A; planned : A; written : option A }.
Arguments prior {A}.
Arguments planned {A}.
Arguments written {A}.

Definition Field_Get {A} (f : Field A) : A := default (planned f) (written f).
Definition Field_GetChange {A} (f : Field A) : A * A := (prior f, planned f).
Definition Field_Set {A} (f : Field A) (v : A) : Field A :=
  {| prior := prior f; planned := planned f; written := Some v |}.

(** [object_classes], [skip_attributes] and [select_attributes] are keys of
    [ldap_object]'s schema only.  Where the resource has no such key the
    field is [None]: [d.Get] returns [nil] and the unchecked type assertion
    on it panics; [d.Set] reports an error and writes nothing. *)
Record ResourceData := {
  Id : string;
  dn : string;
  attributes : Field AttributeSet;
  object_classes : option (Field (gmap string string));
  skip_attributes : option (gmap string string);
  select_attributes : option (gmap string string);
}.

Definition with_Id (id : string) (d : ResourceData) : ResourceData :=
  {| Id := id; dn := dn d; attributes := attributes d;
     object_classes := object_classes d; skip_attributes := skip_attributes d;
     select_attributes := select_attributes d |}.

Definition with_attributes (v : AttributeSet) (d : ResourceData) : ResourceData :=
  {| Id := Id d; dn := dn d; attributes := Field_Set (attributes d) v;
     object_classes := object_classes d; skip_attributes := skip_attributes d;
     select_attributes := select_attributes d |}.

Definition with_object_classes (v : gmap string string) (d : ResourceData)
    : ResourceData :=
  {| Id := Id d; dn := dn d; attributes := attributes d;
     object_classes := (λ f, Field_Set f v) <$> object_classes d;
     skip_attributes := skip_attributes d;
     select_attributes := select_attributes d |}.

(** ** The state a resource function runs in: the resource data it was
    handed and the requests sent over the connection so far.  A function
    returns, or panics (an index out of range, a failed type assertion). *)
Record State := { d : ResourceData; sent : list ldap.Request }.

Inductive Outcome (A : Type) :=
| Returned (a : A) (st : State)
| Panicked (st : State).
Arguments Returned {A}.
Arguments Panicked {A}.

Definition final {A} (o : Outcome A) : State :=
  match o with Returned _ st => st | Panicked st => st end.

Definition M (A : Type) : Type := State → Outcome A.

#[global] Instance M_ret : MRet M := λ A a st, Returned a st.
#[global] Instance M_bind : MBind M := λ A B k m st,
  match m st with
  | Returned a st' => k a st'
  | Panicked st' => Panicked st'
  end.

Definition panic {A} : M A := λ st, Panicked st.

Definition getd {A} (f : ResourceData → A) : M A := λ st, Returned (f (d st)) st.

Definition setd (f : ResourceData → ResourceData) : M unit :=
  λ st, Returned () {| d := f (d st); sent := sent st |}.

(** [d.Get(key)] asserted to be a [schema.Set] *)
Definition GetSet {A} (f : ResourceData → option A) : M A :=
  λ st, match f (d st) with Some v => Returned v st | None => Panicked st end.

Definition SetId (id : string) : M unit := setd (with_Id id).

(** [d.Set("attributes", set)]: the key is in the schema of both resources
    and the value is a set of one-entry string maps, as the schema has it;
    the SDK writes it and returns [nil]. *)
Definition Set_attributes (set : AttributeSet) : M (option ldap.error) :=
  setd (with_attributes set) ;; mret None.

(** [d.Set("object_classes", values)]: the SDK makes the set of the listed
    strings; without the key it returns an error. *)
Definition Set_object_classes (values : list string) : M (option ldap.error) :=
  oc ← getd object_classes;
  match oc with
  | Some _ =>
    setd (with_object_classes
              (foldl (λ s v, schema.Add HashString v s) ∅ values)) ;;
    mret None
  | None => mret (Some (ldap.OtherError "Invalid address to set"))
  end.

Definition HasChange_attributes : M bool :=
  '(o, n) ← getd (λ d, Field_GetChange (attributes d));
  mret (negb (schema.Equal o n)).

Definition HasChange_object_classes : M bool :=
  f ← getd object_classes;
  mret (match f with
        | Some f => let '(o, n) := Field_GetChange f in negb (schema.Equal o n)
        | None => false
        end).

(** ** The connection: a request is sent, and recorded as sent, and the
    directory's answer comes back. *)
Module client.
Section conn.
Context (meta : ldap.Conn).

Definition Search (request : ldap.SearchRequest)
    : M (ldap.SearchResult + ldap.error) :=
  λ st, Returned (ldap.Search meta (sent st) request)
          {| d := d st; sent := sent st ++ [ldap.SearchOf request] |}.

Definition Add (request : ldap.AddRequest) : M (option ldap.error) :=
  λ st, Returned (ldap.Add_ meta (sent st) request)
          {| d := d st; sent := sent st ++ [ldap.AddOf request] |}.

Definition Modify (request : ldap.ModifyRequest) : M (option ldap.error) :=
  λ st, Returned (ldap.Modify meta (sent st) request)
          {| d := d st; sent := sent st ++ [ldap.ModifyOf request] |}.

Definition Del (dn : string) : M (option ldap.error) :=
  λ st, Returned (ldap.Del meta (sent st) dn)
          {| d := d st; sent := sent st ++ [ldap.DelOf dn] |}.
End conn.
End client.

(** [sr.Entries[0]] *)
Definition firstEntry (sr : ldap.SearchResult) : M ldap.Entry :=
  match ldap.Entries sr with
  | entry :: _ => mret entry
  | [] => panic
  end.

(** [err] is an [ldap.Error] and [err.ResultCode == 32] *)
Definition noSuchObject (err : ldap.error) : bool :=
  match err with
  | ldap.Error code _ => code =? 32
  | ldap.OtherError _ => false
  end.

(** [len(attribute.Values) == 1] and [strings.HasPrefix(dn, a)] for
    [a := fmt.Sprintf("%s=%s", attribute.Name, attribute.Values[0])]: we
    don't treat the RDN as an ordinary attribute. *)
Definition isRDN (dn : string) (attribute : ldap.EntryAttribute) : bool :=
  match ldap.Values attribute with
  | [value0] =>
    let a := ldap.Name attribute +:+ "=" +:+ value0 in
    String.prefix a dn
  | _ => false
  end.

(** ** resource [ldap_object] *)
Section resource_ldap_object.
Context `{!GoRuntime} (meta : ldap.Conn).

Definition resourceLDAPObjectExists : M (bool * option ldap.error) :=
  dn ← getd dn;
  (* search by primary key; no attributes are retrieved *)
  let request :=
    {| ldap.BaseDN := dn; ldap.Scope_ := ldap.ScopeBaseObject;
       ldap.Filter := "(objectClass=*)"; ldap.SearchRequest_Attributes := [] |} in
  r ← client.Search meta request;
  match r with
  | inr err =>
    if noSuchObject err then mret (false, None) (* no such object *)
    else mret (false, Some err)
  | inl _ => mret (true, None)
  end.

(** The loop of [readLDAPObject] over the attributes of the entry. *)
Definition readAttributes (dn : string) (attributesToSkip attributesToSet : list string)
    (attrs : list ldap.EntryAttribute) : AttributeSet :=
  foldl (λ set attribute,
           if stringSliceContains attributesToSkip (ldap.Name attribute) then
             (* skip: we don't treat object classes as ordinary attributes *)
             set
           else if (0 <? length attributesToSet)%nat
                   && negb (stringSliceContains attributesToSet (ldap.Name attribute))
           then set
           else if isRDN dn attribute then set
           else
             (* now add each value as an individual entry *)
             foldl (λ set value,
                      schema.Add attributeHash (ldap.Name attribute, value) set)
                   set (ldap.Values attribute))
        ∅ attrs.

Definition readLDAPObject (updateState : bool) : M (option ldap.error) :=
  dn ← getd dn;
  let request :=
    {| ldap.BaseDN := dn; ldap.Scope_ := ldap.ScopeBaseObject;
       ldap.Filter := "(objectclass=*)"; ldap.SearchRequest_Attributes := ["*"] |} in
  r ← client.Search meta request;
  match r with
  | inr err =>
    if noSuchObject err && updateState then (* no such object *)
      SetId "" ;; mret None
    else mret (Some err)
  | inl sr =>
    SetId dn ;;
    entry ← firstEntry sr;
    _ ← Set_object_classes (ldap.GetAttributeValues (ldap.Attributes entry) "objectClass");
    (* retrieve attributes to skip from HCL *)
    skip ← GetSet skip_attributes;
    let attributesToSkip := (["objectClass"] ++ schema.List skip)%list in
    (* retrieve attributes to set from HCL *)
    sel ← GetSet select_attributes;
    let attributesToSet := schema.List sel in
    (* now deal with attributes *)
    let set := readAttributes dn attributesToSkip attributesToSet (ldap.Attributes entry) in
    err ← Set_attributes set;
    match err with
    | Some err => mret (Some err)
    | None => mret None
    end
  end.

Definition resourceLDAPObjectRead : M (option ldap.error) := readLDAPObject true.

(** The attributes of the add request of [resourceLDAPObjectCreate]:
    values accumulated under their name, then one [Attribute] per name. *)
Definition createAttributes (attributesToSkip attributesToSet : list string)
    (attributes : list Item) : gmap string (list string) :=
  foldl (λ m (attribute : Item),
           let '(name, value) := attribute in
           if stringSliceContains attributesToSkip name then m
           else if (0 <? length attributesToSet)%nat
                   && negb (stringSliceContains attributesToSet name)
           then m
           else
             let v := toAttributeValue name value in
             <[name := (default [] (m !! name) ++ [v])%list]> m)
        ∅ attributes.

Definition resourceLDAPObjectCreate : M (option ldap.error) :=
  dn ← getd dn;
  let request := ldap.NewAddRequest dn in
  (* retrieve classe from HCL *)
  oc ← GetSet (λ d, Field_Get <$> object_classes d);
  let objectClasses := schema.List oc in
  let request := ldap.Attribute_ request "objectClass" objectClasses in
  (* retrieve attributes to skip from HCL *)
  skip ← GetSet skip_attributes;
  let attributesToSkip := (["objectClass"] ++ schema.List skip)%list in
  sel ← GetSet select_attributes;
  let attributesToSet := schema.List sel in
  v ← getd (λ d, Field_Get (attributes d));
  let attributes := schema.List v in
  let request :=
    if (0 <? length attributes)%nat then
      let m := createAttributes attributesToSkip attributesToSet attributes in
      (* now loop through the map and add attributes with theys value(s) *)
      foldl (λ request name,
               ldap.Attribute_ request name (default [] (m !! name)))
            request (range_order 5 (fst <$> map_to_list m))
    else request in
  err ← client.Add meta request;
  match err with
  | Some err => mret (Some err)
  | None => SetId dn ;; resourceLDAPObjectRead
  end.

Definition resourceLDAPObjectUpdate : M (option ldap.error) :=
  dn ← getd Id;
  (* retrieve attributes to skip from HCL *)
  skip ← GetSet skip_attributes;
  let attributesToSkip := (["objectClass"] ++ schema.List skip)%list in
  sel ← GetSet select_attributes;
  let attributesToSet := schema.List sel in
  let modify := ldap.NewModifyRequest dn in
  (* handle objectClasses *)
  changed ← HasChange_object_classes;
  modify ←
    (if changed : bool then
       oc ← GetSet (λ d, Field_Get <$> object_classes d);
       let classes := schema.List oc in
       mret (ldap.Replace modify "objectClass" classes)
     else mret modify);
  changed ← HasChange_attributes;
  modify ←
    (if changed : bool then
       '(o, n) ← getd (λ d, Field_GetChange (attributes d));
       mret (computeAndAddDeltas modify o n attributesToSkip attributesToSet)
     else mret modify);
  if (0 <? length (ldap.Changes modify))%nat then
    err ← client.Modify meta modify;
    match err with
    | Some err => mret (Some err)
    | None => resourceLDAPObjectRead
    end
  else resourceLDAPObjectRead.

Definition resourceLDAPObjectDelete : M (option ldap.error) :=
  dn ← getd dn;
  err ← client.Del meta dn;
  match err with
  | Some err => mret (Some err)
  | None => mret None
  end.
End resource_ldap_object.

(** ** resource [ldap_object_attributes], built on the partial-ownership
    diff *)
Module ObjectAttributes.
Section resource.
Context `{!GoRuntime} (meta : ldap.Conn).

(** The set made of the attributes that LDAP returned. *)
Definition ldapSetOf (dn : string) (attrs : list ldap.EntryAttribute) : AttributeSet :=
  foldl (λ ldapSet attribute,
           if isRDN dn attribute then ldapSet
           else
             foldl (λ ldapSet value,
                      schema.Add attributeHash (ldap.Name attribute, value) ldapSet)
                   ldapSet (ldap.Values attribute))
        ∅ attrs.

Definition resourceLDAPObjectAttributesRead : M (option ldap.error) :=
  dn ← getd dn;
  let request :=
    {| ldap.BaseDN := dn; ldap.Scope_ := ldap.ScopeBaseObject;
       ldap.Filter := "(objectclass=*)"; ldap.SearchRequest_Attributes := ["*"] |} in
  r ← client.Search meta request;
  match r with
  | inr err =>
    (if noSuchObject err then SetId "" else mret ()) ;;
    mret (Some err)
  | inl sr =>
    entry ← firstEntry sr;
    let ldapSet := ldapSetOf dn (ldap.Attributes entry) in
    (* We are both interested in the attributes before and after changes *)
    changed ← HasChange_attributes;
    '(oldSet, newSet) ←
      (if changed : bool then
         '(prev, next) ← getd (λ d, Field_GetChange (attributes d));
         mret (Some prev, next)
       else
         next ← getd (λ d, Field_Get (attributes d));
         mret (None, next));
    let unionSet :=
      match oldSet with
      | Some oldSet => schema.Union oldSet newSet
      | None => newSet
      end in
    let set := schema.Intersection unionSet ldapSet in
    (* If the set is empty the attributes do not exist, yet. *)
    if (schema.Len set =? 0)%nat then SetId "" ;; mret None
    else
      err ← Set_attributes set;
      match err with
      | Some err => mret (Some err)
      | None => SetId dn ;; mret None
      end
  end.

(** The changes of the modify request of [resourceLDAPObjectAttributesCreate]. *)
Definition createAttributes (attributes : list Item) : gmap string (list string) :=
  foldl (λ m (attribute : Item),
           let '(name, value) := attribute in
           let v := toAttributeValue name value in
           <[name := (default [] (m !! name) ++ [v])%list]> m)
        ∅ attributes.

Definition resourceLDAPObjectAttributesCreate : M (option ldap.error) :=
  dn ← getd dn;
  let request := ldap.NewModifyRequest dn in
  v ← getd (λ d, Field_Get (attributes d));
  let attributes := schema.List v in
  let request :=
    if (0 <? length attributes)%nat then
      let m := createAttributes attributes in
      foldl (λ request name, ldap.Add request name (default [] (m !! name)))
            request (range_order 6 (fst <$> map_to_list m))
    else request in
  err ← client.Modify meta request;
  match err with
  | Some err => mret (Some err)
  | None => resourceLDAPObjectAttributesRead
  end.

Definition resourceLDAPObjectAttributesUpdate : M (option ldap.error) :=
  dn ← getd dn;
  let modify := ldap.NewModifyRequest dn in
  changed ← HasChange_attributes;
  modify ←
    (if changed : bool then
       '(o, n) ← getd (λ d, Field_GetChange (attributes d));
       mret (computeAndAddAttributeDeltas modify o n)
     else mret modify);
  if (0 <? length (ldap.Changes modify))%nat then
    err ← client.Modify meta modify;
    match err with
    | Some err => mret (Some err)
    | None => resourceLDAPObjectAttributesRead
    end
  else resourceLDAPObjectAttributesRead.

Definition resourceLDAPObjectAttributesDelete : M (option ldap.error) :=
  dn ← getd dn;
  let modify := ldap.NewModifyRequest dn in
  v ← getd (λ d, Field_Get (attributes d));
  let modify := computeAndAddAttributeDeltas modify v ∅ in
  if (0 <? length (ldap.Changes modify))%nat then
    err ← client.Modify meta modify;
    match err with
    | Some err => mret (Some err)
    | None => mret None
    end
  else mret None.
End resource.
End ObjectAttributes.

(** ** resource [ldap_object_attributes], the copy built on the
    full-ownership diff

    The repository holds a second source file of the resource, with the
    same four functions: its update and delete call [computeAndAddDeltas],
    its update ends in [resourceLDAPObjectRead], and its read intersects the
    union with itself. *)
Module ObjectAttributesFull.
Section resource.
Context `{!GoRuntime} (meta : ldap.Conn).

Definition ldapSetOf (attrs : list ldap.EntryAttribute) : AttributeSet :=
  foldl (λ ldapSet attribute,
           foldl (λ ldapSet value,
                    schema.Add attributeHash (ldap.Name attribute, value) ldapSet)
                 ldapSet (ldap.Values attribute))
        ∅ attrs.

Definition resourceLDAPObjectAttributesRead : M (option ldap.error) :=
  dn ← getd dn;
  let request :=
    {| ldap.BaseDN := dn; ldap.Scope_ := ldap.ScopeBaseObject;
       ldap.Filter := "(objectclass=*)"; ldap.SearchRequest_Attributes := ["*"] |} in
  r ← client.Search meta request;
  match r with
  | inr err =>
    (if noSuchObject err then SetId "" else mret ()) ;;
    mret (Some err)
  | inl sr =>
    entry ← firstEntry sr;
    let ldapSet := ldapSetOf (ldap.Attributes entry) in
    changed ← HasChange_attributes;
    '(prevSet, nextSet) ←
      (if changed : bool then
         '(prev, next) ← getd (λ d, Field_GetChange (attributes d));
         mret (Some prev, next)
       else
         next ← getd (λ d, Field_Get (attributes d));
         mret (None, next));
    let unionSet :=
      match prevSet with
      | Some prevSet => schema.Union prevSet nextSet
      | None => nextSet
      end in
    let set := schema.Intersection unionSet unionSet in
    if (schema.Len set =? 0)%nat then SetId "" ;; mret None
    else
      err ← Set_attributes set;
      match err with
      | Some err => mret (Some err)
      | None => SetId dn ;; mret None
      end
  end.

Definition resourceLDAPObjectAttributesCreate : M (option ldap.error) :=
  dn ← getd dn;
  let request := ldap.NewModifyRequest dn in
  v ← getd (λ d, Field_Get (attributes d));
  let attributes := schema.List v in
  let request :=
    if (0 <? length attributes)%nat then
      let m := ObjectAttributes.createAttributes attributes in
      foldl (λ request name, ldap.Add request name (default [] (m !! name)))
            request (range_order 6 (fst <$> map_to_list m))
    else request in
  err ← client.Modify meta request;
  match err with
  | Some err => mret (Some err)
  | None => SetId dn ;; mret None
  end.

Definition resourceLDAPObjectAttributesUpdate : M (option ldap.error) :=
  dn ← getd dn;
  let modify := ldap.NewModifyRequest dn in
  changed ← HasChange_attributes;
  modify ←
    (if changed : bool then
       '(o, n) ← getd (λ d, Field_GetChange (attributes d));
       mret (computeAndAddDeltas modify o n [] [])
     else mret modify);
  if (0 <? length (ldap.Changes modify))%nat then
    err ← client.Modify meta modify;
    match err with
    | Some err => mret (Some err)
    | None => resourceLDAPObjectRead meta
    end
  else resourceLDAPObjectRead meta.

Definition resourceLDAPObjectAttributesDelete : M (option ldap.error) :=
  dn ← getd dn;
  let modify := ldap.NewModifyRequest dn in
  v ← getd (λ d, Field_Get (attributes d));
  let modify := computeAndAddDeltas modify v ∅ [] [] in
  if (0 <? length (ldap.Changes modify))%nat then
    err ← client.Modify meta modify;
    match err with
    | Some err => mret (Some err)
    | None => mret None
    end
  else mret None.
End resource.
End ObjectAttributesFull.

(** ** Vocabulary of the statements *)

(** The request [m] with the changes [cs] appended. *)
Definition appendChanges (m : ldap.ModifyRequest) (cs : list ldap.Change)
    : ldap.ModifyRequest :=
  {| ldap.DN := ldap.DN m; ldap.Changes := (ldap.Changes m ++ cs)%list |}.

Definition changeOf (op : ldap.Operation) (name : string) (values : list string)
    : ldap.Change :=
  {| ldap.Operation_ := op;
     ldap.Modification := {| ldap.Type_ := name; ldap.Vals := values |} |}.

Definition nameOf (c : ldap.Change) : string := ldap.Type_ (ldap.Modification c).

(** The attribute set with the listed items: each one added to the empty
    set, as the SDK builds the set of a configuration block. *)
Definition attributeSetOf `{!GoRuntime} (l : list Item) : AttributeSet :=
  foldl (λ s m, schema.Add attributeHash m s) ∅ l.

(** The values that the set [s] holds under the name [k], in the order of
    [List]. *)
Definition valuesUnder (k : string) (s : AttributeSet) : list string :=
  snd <$> filter (λ m : Item, k = m.1) (schema.List s).

(** The sets of the partial-change scenario: [a] with the values 1 and 2
    before, 1 and 3 after. *)
Definition scenarioOld `{!GoRuntime} : AttributeSet :=
  attributeSetOf [("a", "1"); ("a", "2")].
Definition scenarioNew `{!GoRuntime} : AttributeSet :=
  attributeSetOf [("a", "1"); ("a", "3")].

(** The directives of the full-ownership diff, by the sets of names it
    computes. *)
Section deltas.
Context `{!GoRuntime}.
Context (os ns : AttributeSet) (attributesToSkip attributesToSet : list string).

Definition removedNames : gset string := namesOf (schema.List (schema.Difference os ns)).
Definition addedNames : gset string := namesOf (schema.List (schema.Difference ns os)).
Definition keptNames : gset string := namesOf (schema.List (schema.Intersection ns os)).

Definition isGone (k : string) : bool :=
  negb (util.Contains k addedNames) && negb (util.Contains k keptNames).
Definition isNew (k : string) : bool :=
  negb (util.Contains k removedNames) && negb (util.Contains k keptNames).

Definition tracked (k : string) : Prop :=
  shouldSkipAttribute attributesToSkip attributesToSet k = false.

Definition changedNames : gset string :=
  list_to_set (filter (λ k, tracked k ∧ isNew k = false) (util.List 1 addedNames))
  ∪ (list_to_set (filter (λ k, tracked k ∧ isGone k = false) (util.List 0 removedNames))
     ∪ util.NewSet).

Definition deltas : list ldap.Change :=
  (((λ k, DeleteChange k []) <$>
      filter (λ k, tracked k ∧ isGone k = true) (util.List 0 removedNames))
   ++ ((λ k, AddChange k (valuesOf k (schema.List ns))) <$>
         filter (λ k, tracked k ∧ isNew k = true) (util.List 1 addedNames))
   ++ ((λ k, ReplaceChange k (valuesOf k (schema.List ns))) <$>
         filter tracked (util.List 2 changedNames)))%list.
End deltas.

(** ** A runtime and two directories to run the code on *)

(** UTF-16, little endian, no byte order mark: the code units of each rune
    of the string, low byte first; a byte that starts no valid UTF-8
    sequence is encoded as U+FFFD. *)
Fixpoint utf16leUnits (fuel : nat) (s : list Z) : list Z :=
  match fuel, s with
  | S fuel', _ :: _ =>
    let '(r, width) := DecodeRuneInString s in
    (if r <=? 0xFFFF then [Z.land r 0xFF; Z.shiftr r 8]
     else
       let r' := r - 0x10000 in
       let hi := 0xD800 + Z.shiftr r' 10 in
       let lo := 0xDC00 + Z.land r' 0x3FF in
       [Z.land hi 0xFF; Z.shiftr hi 8; Z.land lo 0xFF; Z.shiftr lo 8])
    ++ utf16leUnits fuel' (drop width s)
  | _, _ => []
  end%list.

(** [unicode.UTF16(unicode.LittleEndian, unicode.IgnoreBOM).NewEncoder().String]
    of golang.org/x/text: the encoded string and whether an error is
    reported.  Every rune has code units and invalid input is replaced, so
    the encoder reports none. *)
Definition utf16leString (s : string) : string * bool :=
  (of_bytes (utf16leUnits (String.length s) (bytes s)), false).

(** Keys visited in the order of [elements]; every rune above U+00FF taken
    as printable; the encoder above. *)
Definition exampleRuntime : GoRuntime :=
  {| isPrintTable := λ _, true;
     range_order := λ _ l, l;
     range_order_perm := λ _ l, reflexivity l;
     utf16le := utf16leString |}.

(** A directory without the entry: every search ends in "no such object". *)
Definition absentDirectory : ldap.Conn :=
  {| ldap.Search := λ _ _, inr (ldap.Error 32 "No Such Object");
     ldap.Add_ := λ _ _, None;
     ldap.Modify := λ _ _, None;
     ldap.Del := λ _ _, None |}.

(** A directory that answers every search with the one entry and accepts
    every change. *)
Definition directoryOf (entry : ldap.Entry) : ldap.Conn :=
  {| ldap.Search := λ _ _, inl {| ldap.Entries := [entry] |};
     ldap.Add_ := λ _ _, None;
     ldap.Modify := λ _ _, None;
     ldap.Del := λ _ _, None |}.

(** Resource data of [ldap_object_attributes] (no key of [ldap_object]). *)
Definition attributesData (dn : string) (old new : AttributeSet) : ResourceData :=
  {| Id := dn; dn := dn;
     attributes := {| prior := old; planned := new; written := None |};
     object_classes := None; skip_attributes := None; select_attributes := None |}.

(** Resource data of [ldap_object]. *)
Definition objectData (dn : string) (classes : gmap string string)
    (old new : AttributeSet) (skip select : gmap string string) : ResourceData :=
  {| Id := dn; dn := dn;
     attributes := {| prior := old; planned := new; written := None |};
     object_classes := Some {| prior := classes; planned := classes; written := None |};
     skip_attributes := Some skip; select_attributes := Some select |}.

Definition start (d : ResourceData) : State := {| d := d; sent := [] |}.

(** The search of the read functions: the entry itself, with all its
    attributes. *)
Definition readRequest (dn : string) : ldap.SearchRequest :=
  {| ldap.BaseDN := dn; ldap.Scope_ := ldap.ScopeBaseObject;
     ldap.Filter := "(objectclass=*)"; ldap.SearchRequest_Attributes := ["*"] |}.

(** An entry [cn=foo,dc=x] that has no attribute [a]. *)
Definition noAttributeA : ldap.Entry :=
  {| ldap.Entry_DN := "cn=foo,dc=x";
     ldap.Attributes := [{| ldap.Name := "cn"; ldap.Values := ["foo"] |}] |}.

(** A change of the partial-ownership diff: a Delete with the values removed
    under a name, or an Add with the values added under a name. *)
Definition ownedChange `{!GoRuntime} (os ns : AttributeSet) (c : ldap.Change) : Prop :=
  (∃ k, k ∈ removedNames os ns
        ∧ c = DeleteChange k (valuesOf k (schema.List (schema.Difference os ns))))
  ∨ (∃ k, k ∈ addedNames os ns
          ∧ c = AddChange k (valuesOf k (schema.List (schema.Difference ns os)))).

(** An attribute of the entry that the filter of [readLDAPObject] lets
    through: its name is not among the names to skip and, when there are names
    to set, it is one of them. *)
Definition readable (attributesToSkip attributesToSet : list string)
    (attribute : ldap.EntryAttribute) : bool :=
  negb (stringSliceContains attributesToSkip (ldap.Name attribute))
  && negb ((0 <? length attributesToSet)%nat
           && negb (stringSliceContains attributesToSet (ldap.Name attribute))).

(** An entry [cn=foo,dc=x] with two object classes, its naming attribute
    and a mail address. *)
Definition withClasses : ldap.Entry :=
  {| ldap.Entry_DN := "cn=foo,dc=x";
     ldap.Attributes :=
       [{| ldap.Name := "objectClass"; ldap.Values := ["top"; "person"] |};
        {| ldap.Name := "cn"; ldap.Values := ["foo"] |};
        {| ldap.Name := "mail"; ldap.Values := ["a@x"] |}] |}.

(** ** Vocabulary of the further properties *)

(** Some value of the name [k] is in [os] and not in [ns] (sets compare
    items by hash code). *)
Definition lostIn (os ns : AttributeSet) (k : string) : Prop :=
  ∃ code v, os !! code = Some (k, v) ∧ ns !! code = None.

(** Some value of the name [k] is in [ns] under a code that [os] has too. *)
Definition keptIn (os ns : AttributeSet) (k : string) : Prop :=
  ∃ code v, ns !! code = Some (k, v) ∧ is_Some (os !! code).

(** A Delete for an Add with the same name and values, and the reverse. *)
Definition invertChange (c : ldap.Change) : ldap.Change :=
  {| ldap.Operation_ :=
       match ldap.Operation_ c with
       | ldap.AddAttribute => ldap.DeleteAttribute
       | ldap.DeleteAttribute => ldap.AddAttribute
       | ldap.ReplaceAttribute => ldap.ReplaceAttribute
       end;
     ldap.Modification := ldap.Modification c |}.

(** The state after one more request has gone out. *)
Definition afterSending (r : ldap.Request) (st : State) : State :=
  {| d := d st; sent := sent st ++ [r] |}.

(** A directory that answers every search with success and no entry. *)
Definition emptyResultDirectory : ldap.Conn :=
  {| ldap.Search := λ _ _, inl {| ldap.Entries := [] |};
     ldap.Add_ := λ _ _, None;
     ldap.Modify := λ _ _, None;
     ldap.Del := λ _ _, None |}.

(** ** The import of [ldap_object] *)

Definition with_dn (v : string) (d : ResourceData) : ResourceData :=
  {| Id := Id d; dn := v; attributes := attributes d;
     object_classes := object_classes d; skip_attributes := skip_attributes d;
     select_attributes := select_attributes d |}.

(** [d.Set("dn", dn)]: the key is a string of both schemas. *)
Definition Set_dn (v : string) : M unit := setd (with_dn v).

(** [github.com/pkg/errors]: an error under a message; [Wrap] of [nil] is
    [nil]. *)
Module errors.

Record withMessage := { cause : ldap.error; msg : string }.

Definition Wrap (err : option ldap.error) (message : string) : option withMessage :=
  match err with
  | None => None
  | Some err => Some {| cause := err; msg := message |}
  end.

End errors.

(** The returned slice holds the pointer [d] itself: the resource data as
    the read left it. *)
Definition resourceLDAPObjectImport `{!GoRuntime} (meta : ldap.Conn)
    : M (list ResourceData * option errors.withMessage) :=
  dn ← getd Id;
  Set_dn dn ;;
  err ← resourceLDAPObjectRead meta;
  d ← getd id;
  mret ([d], errors.Wrap err "Reading ldap object").

(** ** strings.ToLower: bytes below [RuneSelf] are mapped one by one; a string
    with another byte goes through [unicode.ToLower], rune by rune, which is
    left open as [mapLower]. *)
Section data_ldap_object.
Variable mapLower : string → string.

Definition isASCII (s : string) : bool := forallb (λ c, c <? RuneSelf) (bytes s).

Definition lowerByte (c : Z) : Z := if between 65 90 c then c + 32 else c.

Definition ToLower (s : string) : string :=
  if isASCII s then of_bytes (lowerByte <$> bytes s) else mapLower s.

(** [SEARCH_DEPTHS], keyed by [ldap.ScopeWholeSubtree] (2),
    [ldap.ScopeBaseObject] (0) and [ldap.ScopeSingleLevel] (1), in the order
    of the literal; the loop of [normalizeSearchDepth] meets the entries in
    an order of the runtime's choice. *)
Definition SEARCH_DEPTHS : list (Z * list string) :=
  [ (2, ["sub"; "subtree"; "wholeSubtree"]);
    (0, ["base"; "baseObject"]);
    (1, ["one"; "singleLevel"]) ].

Fixpoint searchAlternates (lowerSearch : string) (alternates : list string) : bool :=
  match alternates with
  | [] => false
  | a :: alternates =>
    if String.eqb (ToLower a) lowerSearch then true
    else searchAlternates lowerSearch alternates
  end.

(** searchDepthLookup normalizes the name of a search depth; [order] is
    the order in which the [range] over [SEARCH_DEPTHS] yields its entries. *)
Definition normalizeSearchDepth (order : list (Z * list string)) (search : string) : Z :=
  let lowerSearch := ToLower search in
  (fix loop (entries : list (Z * list string)) : Z :=
     match entries with
     | [] => -1
     | (val, alternates) :: entries =>
       if searchAlternates lowerSearch alternates then val else loop entries
     end) order.

(** The scope that a lower-cased name stands for. *)
Definition scopeOf (lower : string) : Z :=
  if decide (lower ∈ ["sub"; "subtree"; "wholesubtree"]) then 2
  else if decide (lower ∈ ["base"; "baseobject"]) then 0
  else if decide (lower ∈ ["one"; "singlelevel"]) then 1
  else -1.

End data_ldap_object.

(** ** The configuration of the provider *)

Module diag.



End diag.

Module tls.


End tls.







(** The set with the one item [mail = a@x], and resource data of either
    resource that plan it for [cn=foo,dc=x], with nothing there before. *)
Definition ownedMail : AttributeSet :=
  @attributeSetOf exampleRuntime [("mail", "a@x")].

Definition mailAttributes : State := start (attributesData "cn=foo,dc=x" ∅ ownedMail).

Definition mailObject : State :=
  start (objectData "cn=foo,dc=x" ∅ ∅ ownedMail ∅ ∅).


(** An attribute [a] with two values whose items have the same CRC-32. *)
Definition collidingValues : ldap.EntryAttribute :=
  {| ldap.Name := "a"; ldap.Values := ["7gZvkoIRS"; "mRlj76OHB"] |}.

(** * Proofs *)

#[local] Set Warnings "-clear-no-such-hyp".

(** Runs the state-passing code of a resource function. *)
Ltac run :=
  repeat progress (
    unfold mbind, M_bind, mret, M_ret, getd, setd, GetSet, SetId, panic,
      HasChange_attributes, HasChange_object_classes, Set_attributes,
      Set_object_classes, client.Search, client.Add, client.Modify, client.Del,
      firstEntry, Field_GetChange, Field_Get;
    cbn [d sent Id dn attributes object_classes skip_attributes select_attributes
         prior planned written final fst snd start attributesData objectData
         with_Id with_attributes with_object_classes negb default]).

Local Open Scope list_scope.

(** ** The SDK's set *)
Section set_facts.
Context {A : Type}.
Implicit Types s other : gmap string A.

Lemma List_empty : schema.List (∅ : gmap string A) = [].
Proof. reflexivity. Qed.

Lemma elem_of_listCode s code : code ∈ schema.listCode s ↔ is_Some (s !! code).
Proof.
  unfold schema.listCode. rewrite merge_sort_Permutation.
  rewrite list_elem_of_fmap. split.
  - intros [[c x] [-> Hx]]. apply elem_of_map_to_list in Hx. by exists x.
  - intros [x Hx]. exists (code, x). split; [done|]. by apply elem_of_map_to_list.
Qed.

Lemma elem_of_List s x : x ∈ schema.List s ↔ ∃ code, s !! code = Some x.
Proof.
  unfold schema.List. rewrite list_elem_of_omap. split.
  - intros [code [_ Hc]]. by exists code.
  - intros [code Hc]. exists code. split; [|done].
    apply elem_of_listCode. by exists x.
Qed.

Lemma Difference_self s : schema.Difference s s = ∅.
Proof.
  apply map_empty_filter_2. intros code x Hx Hn. apply Hn. by exists x.
Qed.

Lemma Difference_empty_l other : schema.Difference ∅ other = ∅.
Proof. apply map_filter_empty. Qed.

Lemma Difference_empty_r s : schema.Difference s ∅ = s.
Proof.
  apply map_filter_id. intros code x _. cbn. rewrite lookup_empty. by intros [? ?].
Qed.

Lemma Intersection_empty_r s : schema.Intersection s ∅ = ∅.
Proof.
  apply map_empty_filter_2. intros code x _. cbn. rewrite lookup_empty. by intros [? ?].
Qed.

Lemma Intersection_empty_l other : schema.Intersection ∅ other = ∅.
Proof. apply map_filter_empty. Qed.

Lemma Intersection_self s : schema.Intersection s s = s.
Proof. apply map_filter_id. intros code x Hx. by exists x. Qed.

Lemma lookup_Difference s other code x :
  schema.Difference s other !! code = Some x ↔ s !! code = Some x ∧ other !! code = None.
Proof.
  unfold schema.Difference. rewrite map_lookup_filter_Some. cbn.
  rewrite <- eq_None_not_Some. done.
Qed.

Lemma lookup_Intersection s other code x :
  schema.Intersection s other !! code = Some x ↔ s !! code = Some x ∧ is_Some (other !! code).
Proof. unfold schema.Intersection. by rewrite map_lookup_filter_Some. Qed.
End set_facts.

Lemma appendChanges_nil m : appendChanges m [] = m.
Proof. destruct m. unfold appendChanges. cbn. by rewrite app_nil_r. Qed.

Lemma appendChanges_app m cs cs' :
  appendChanges (appendChanges m cs) cs' = appendChanges m (cs ++ cs').
Proof. unfold appendChanges. cbn. by rewrite app_assoc. Qed.

Lemma appendChange_appendChanges m op k vs :
  ldap.appendChange m op k vs = appendChanges m [changeOf op k vs].
Proof. reflexivity. Qed.

Section diff_facts.
Context `{!GoRuntime}.

Lemma range_order_nil site : range_order site [] = [].
Proof. apply Permutation_nil_r. apply range_order_perm. Qed.

Lemma range_order_singleton site k : range_order site [k] = [k].
Proof. apply Permutation_singleton_r. apply range_order_perm. Qed.

Lemma util_List_empty site : util.List site ∅ = [].
Proof. unfold util.List. rewrite elements_empty. apply range_order_nil. Qed.

Lemma elem_of_util_List site set k : k ∈ util.List site set ↔ k ∈ set.
Proof. unfold util.List. rewrite range_order_perm. apply elem_of_elements. Qed.

Lemma NoDup_util_List site set : NoDup (util.List site set).
Proof. unfold util.List. rewrite range_order_perm. apply NoDup_elements. Qed.

Lemma elem_of_namesOf_acc (l : list Item) (set0 : gset string) k :
  k ∈ foldl (λ set (v : Item), util.Add v.1 set) set0 l ↔ k ∈ set0 ∨ ∃ v, (k, v) ∈ l.
Proof.
  revert set0. induction l as [|[n v] l IH]; intros set0; cbn.
  - split; [by left|]. intros [?|[v Hv]]; [done|]. by apply elem_of_nil in Hv.
  - rewrite IH. unfold util.Add. rewrite elem_of_union, elem_of_singleton. split.
    + intros [[->|?]|[v' Hv']].
      * right. exists v. left.
      * by left.
      * right. exists v'. by right.
    + intros [?|[v' Hv']]; [by left; right|].
      apply elem_of_cons in Hv' as [Heq|Hin].
      * left; left. congruence.
      * right. by exists v'.
Qed.

Lemma elem_of_namesOf (l : list Item) k : k ∈ namesOf l ↔ ∃ v, (k, v) ∈ l.
Proof.
  unfold namesOf. rewrite elem_of_namesOf_acc. unfold util.NewSet.
  split; [intros [?|?]; [set_solver|done]|by right].
Qed.

Lemma namesOf_nil : namesOf [] = ∅.
Proof. reflexivity. Qed.

Lemma valuesOf_acc k (l : list Item) acc :
  foldl (λ values (m : Item),
           if decide (k = m.1) then (values ++ [toAttributeValue k m.2])%list
           else values) acc l
  = acc ++ (toAttributeValue k <$> (snd <$> filter (λ m : Item, k = m.1) l)).
Proof.
  revert acc. induction l as [|m l IH]; intros acc.
  - cbn. by rewrite app_nil_r.
  - cbn [foldl]. rewrite IH, filter_cons. destruct (decide (k = m.1)); [|done].
    cbn. by rewrite <- app_assoc.
Qed.

Lemma valuesOf_eq k (l : list Item) :
  valuesOf k l = toAttributeValue k <$> (snd <$> filter (λ m : Item, k = m.1) l).
Proof. unfold valuesOf. by rewrite valuesOf_acc. Qed.

(** A loop that appends one change per key. *)
Lemma foldl_appendChange op (g : string → list string) l m :
  foldl (λ m k, ldap.appendChange m op k (g k)) m l
  = appendChanges m ((λ k, changeOf op k (g k)) <$> l).
Proof.
  revert m. induction l as [|k l IH]; intros m; cbn.
  - by rewrite appendChanges_nil.
  - rewrite IH, appendChange_appendChanges, appendChanges_app. done.
Qed.

(** A loop that, for each key that is not skipped, either appends a change
    or moves the key to the changed names. *)
Lemma foldl_classify (f : ldap.ModifyRequest * gset string → string → ldap.ModifyRequest * gset string)
    (skip alone : string → bool) op (g : string → list string) l m ck :
  (∀ m ck k, f (m, ck) k =
     if skip k then (m, ck)
     else if alone k then (ldap.appendChange m op k (g k), ck)
     else (m, util.Add k ck)) →
  foldl f (m, ck) l
  = (appendChanges m ((λ k, changeOf op k (g k)) <$>
                        filter (λ k, skip k = false ∧ alone k = true) l),
     list_to_set (filter (λ k, skip k = false ∧ alone k = false) l) ∪ ck).
Proof.
  intros Hf. revert m ck. induction l as [|k l IH]; intros m ck.
  - cbn. rewrite appendChanges_nil. f_equal. set_solver.
  - cbn [foldl]. rewrite Hf, !filter_cons.
    destruct (skip k) eqn:Hs.
    + rewrite IH. rewrite !decide_False by (intros [? ?]; congruence). done.
    + destruct (alone k) eqn:Ha.
      * rewrite IH. rewrite decide_True by done.
        rewrite decide_False by (intros [? ?]; congruence).
        rewrite appendChange_appendChanges, appendChanges_app. done.
      * rewrite IH. rewrite decide_False by (intros [? ?]; congruence).
        rewrite decide_True by done. f_equal.
        unfold util.Add. set_solver.
Qed.

(** A loop that appends one change per key that is not skipped. *)
Lemma foldl_unless (skip : string → bool) op (g : string → list string) l m :
  foldl (λ m k, if skip k then m else ldap.appendChange m op k (g k)) m l
  = appendChanges m ((λ k, changeOf op k (g k)) <$> filter (λ k, skip k = false) l).
Proof.
  revert m. induction l as [|k l IH]; intros m.
  - cbn. by rewrite appendChanges_nil.
  - cbn [foldl]. rewrite IH, filter_cons. destruct (skip k).
    + by rewrite decide_False by done.
    + rewrite decide_True by done.
      by rewrite appendChange_appendChanges, appendChanges_app.
Qed.
End diff_facts.

Section deltas_spec.
Context `{!GoRuntime}.
Context (os ns : AttributeSet) (attributesToSkip attributesToSet : list string).

Lemma computeAndAddDeltas_spec modify :
  computeAndAddDeltas modify os ns attributesToSkip attributesToSet
  = appendChanges modify (deltas os ns attributesToSkip attributesToSet).
Proof.
  unfold computeAndAddDeltas.
  rewrite (foldl_classify _ (shouldSkipAttribute attributesToSkip attributesToSet)
             (isGone os ns) ldap.DeleteAttribute (λ _, [])) by done.
  rewrite (foldl_classify _ (shouldSkipAttribute attributesToSkip attributesToSet)
             (isNew os ns) ldap.AddAttribute (λ k, valuesOf k (schema.List ns))) by done.
  cbn beta iota. unfold ldap.Replace.
  rewrite (foldl_unless (shouldSkipAttribute attributesToSkip attributesToSet)
             ldap.ReplaceAttribute (λ k, valuesOf k (schema.List ns))).
  by rewrite !appendChanges_app.
Qed.
End deltas_spec.

Section partial_spec.
Context `{!GoRuntime}.

Lemma computeAndAddAttributeDeltas_spec modify (os ns : AttributeSet) :
  computeAndAddAttributeDeltas modify os ns
  = appendChanges modify
      (((λ k, DeleteChange k (valuesOf k (schema.List (schema.Difference os ns)))) <$>
          util.List 3 (removedNames os ns))
       ++ ((λ k, AddChange k (valuesOf k (schema.List (schema.Difference ns os)))) <$>
             util.List 4 (addedNames os ns))).
Proof.
  unfold computeAndAddAttributeDeltas, ldap.Delete, ldap.Add.
  rewrite (foldl_appendChange ldap.DeleteAttribute
             (λ k, valuesOf k (schema.List (schema.Difference os ns)))).
  rewrite (foldl_appendChange ldap.AddAttribute
             (λ k, valuesOf k (schema.List (schema.Difference ns os)))).
  by rewrite appendChanges_app.
Qed.

Lemma deltas_same (S : AttributeSet) skip sel : deltas S S skip sel = [].
Proof.
  unfold deltas, changedNames, removedNames, addedNames.
  rewrite !Difference_self, List_empty, namesOf_nil, !util_List_empty.
  by rewrite !filter_nil.
Qed.

(** C1.  Idempotence of both diff engines: with the same attribute set as
    old and as new set (and, for the full-ownership diff, empty skip and
    select lists), [computeAndAddDeltas] and [computeAndAddAttributeDeltas]
    leave the modify request as they found it: no Add, no Replace and no
    Delete is appended. *)
Theorem idempotence (S : AttributeSet) (modify : ldap.ModifyRequest) :
  computeAndAddDeltas modify S S [] [] = modify
  ∧ computeAndAddAttributeDeltas modify S S = modify.
Proof.
  split.
  - by rewrite computeAndAddDeltas_spec, deltas_same, appendChanges_nil.
  - rewrite computeAndAddAttributeDeltas_spec.
    unfold removedNames, addedNames.
    rewrite !Difference_self, List_empty, namesOf_nil, !util_List_empty.
    apply appendChanges_nil.
Qed.
End partial_spec.

Section scenario.
Context `{!GoRuntime}.

Lemma scenario_removed : schema.List (schema.Difference scenarioOld scenarioNew) = [("a", "2")].
Proof. vm_compute. reflexivity. Qed.
Lemma scenario_added : schema.List (schema.Difference scenarioNew scenarioOld) = [("a", "3")].
Proof. vm_compute. reflexivity. Qed.
Lemma scenario_kept : schema.List (schema.Intersection scenarioNew scenarioOld) = [("a", "1")].
Proof. vm_compute. reflexivity. Qed.
Lemma scenario_new : schema.List scenarioNew = [("a", "3"); ("a", "1")].
Proof. vm_compute. reflexivity. Qed.

(** The hash codes of the new set, as [List] sorts them: the code of
    [a = 3] comes before the code of [a = 1]. *)
Lemma scenario_codes :
  attributeHash ("a", "1") = 98384051
  ∧ attributeHash ("a", "3") = 2949967928
  ∧ schema.listCode scenarioNew = ["2949967928"; "98384051"].
Proof. vm_compute. done. Qed.

Lemma util_List_singleton site (set : gset string) k :
  elements set = [k] → util.List site set = [k].
Proof. unfold util.List. intros ->. apply range_order_singleton. Qed.

Lemma scenario_full dn :
  computeAndAddDeltas (ldap.NewModifyRequest dn) scenarioOld scenarioNew [] []
  = {| ldap.DN := dn; ldap.Changes := [ReplaceChange "a" ["3"; "1"]] |}.
Proof.
  rewrite computeAndAddDeltas_spec.
  unfold deltas, changedNames, isGone, isNew, removedNames, addedNames, keptNames.
  rewrite scenario_removed, scenario_added, scenario_kept, scenario_new.
  rewrite !(util_List_singleton _ _ "a") by (vm_compute; reflexivity).
  vm_compute. reflexivity.
Qed.

Lemma scenario_partial dn :
  computeAndAddAttributeDeltas (ldap.NewModifyRequest dn) scenarioOld scenarioNew
  = {| ldap.DN := dn;
       ldap.Changes := [DeleteChange "a" ["2"]; AddChange "a" ["3"]] |}.
Proof.
  rewrite computeAndAddAttributeDeltas_spec.
  unfold removedNames, addedNames.
  rewrite scenario_removed, scenario_added.
  rewrite !(util_List_singleton _ _ "a") by (vm_compute; reflexivity).
  vm_compute. reflexivity.
Qed.
End scenario.


Section scenario_claims.
Context `{!GoRuntime}.

(** C2.  The partial-change scenario: with [a] holding 1 and 2 in the old
    set and 1 and 3 in the new one, the full-ownership diff appends exactly
    one directive, a Replace of [a] whose values are the values of [a] in
    the new set, 1 and 3 (they come in the order of the set's [List], by
    hash code, which puts 3 first); the partial-ownership diff appends
    exactly a Delete of [a] with the value 2 and then an Add of [a] with the
    value 3. *)
Theorem partial_change_scenario dn :
  (∃ values,
     ldap.Changes (computeAndAddDeltas (ldap.NewModifyRequest dn) scenarioOld scenarioNew [] [])
     = [ReplaceChange "a" values]
     ∧ values ≡ₚ ["1"; "3"]
     ∧ values = valuesUnder "a" scenarioNew)
  ∧ ldap.Changes (computeAndAddAttributeDeltas (ldap.NewModifyRequest dn) scenarioOld scenarioNew)
    = [DeleteChange "a" ["2"]; AddChange "a" ["3"]].
Proof.
  split.
  - exists ["3"; "1"]. rewrite scenario_full. split; [done|]. split.
    + apply Permutation_swap.
    + unfold valuesUnder. by rewrite scenario_new.
  - by rewrite scenario_partial.
Qed.

Lemma scenario_changed : schema.Equal scenarioOld scenarioNew = false.
Proof. vm_compute. reflexivity. Qed.

Lemma scenario_old : schema.List scenarioOld = [("a", "2"); ("a", "1")].
Proof. vm_compute. reflexivity. Qed.

Lemma scenario_delete dn :
  computeAndAddDeltas (ldap.NewModifyRequest dn) scenarioOld ∅ [] []
  = {| ldap.DN := dn; ldap.Changes := [DeleteChange "a" []] |}.
Proof.
  rewrite computeAndAddDeltas_spec.
  unfold deltas, changedNames, isGone, isNew, removedNames, addedNames, keptNames.
  rewrite Difference_empty_r, Difference_empty_l, Intersection_empty_l, List_empty, scenario_old.
  rewrite namesOf_nil, !util_List_empty.
  rewrite !(util_List_singleton _ _ "a") by (vm_compute; reflexivity).
  change (util.List 2 _) with (util.List 2 ∅). rewrite util_List_empty.
  vm_compute. reflexivity.
Qed.

(** C3.  The copy of [ldap_object_attributes] that calls the full-ownership
    diff, run on the partial-change scenario, whatever the directory
    answers: its update sends a modify request whose one change is a Replace
    of [a], and its deletion of the owned values 1 and 2 sends a Delete of
    [a] with no value list at all.  (Claim C3 has only Delete and Add, each
    with the values removed or added; [attributesUpdate_sends] and
    [attributesDelete_sends] below show that for the resource built on the
    partial-ownership diff.) *)
Theorem full_copy_update_replaces (meta : ldap.Conn) :
  ldap.ModifyOf {| ldap.DN := "cn=foo,dc=x";
                   ldap.Changes := [ReplaceChange "a" ["3"; "1"]] |}
    ∈ sent (final (ObjectAttributesFull.resourceLDAPObjectAttributesUpdate meta
                     (start (attributesData "cn=foo,dc=x" scenarioOld scenarioNew))))
  ∧ ldap.ModifyOf {| ldap.DN := "cn=foo,dc=x";
                     ldap.Changes := [DeleteChange "a" []] |}
    ∈ sent (final (ObjectAttributesFull.resourceLDAPObjectAttributesDelete meta
                     (start (attributesData "cn=foo,dc=x" scenarioOld scenarioOld)))).
Proof.
  split.
  - unfold ObjectAttributesFull.resourceLDAPObjectAttributesUpdate.
    run. rewrite scenario_changed. run. rewrite scenario_full. 
    cbn [ldap.Changes length Nat.ltb Nat.leb app].
    destruct (ldap.Modify meta _ _); run.
    + set_solver.
    + unfold resourceLDAPObjectRead, readLDAPObject. run.
      destruct (ldap.Search meta _ _) as [sr|err]; run.
      * destruct (ldap.Entries sr); run; set_solver.
      * destruct (noSuchObject err && true); run; set_solver.
  - unfold ObjectAttributesFull.resourceLDAPObjectAttributesDelete.
    run. rewrite scenario_delete.
    cbn [ldap.Changes length Nat.ltb Nat.leb app].
    destruct (ldap.Modify meta _ _); run; set_solver.
Qed.

(** The partial-ownership diff appends Delete and Add changes only, each
    with the values removed or added under its name, and there is at least
    one such value. *)
Lemma valuesOf_nonempty k (l : list Item) : k ∈ namesOf l → valuesOf k l ≠ [].
Proof.
  rewrite elem_of_namesOf, valuesOf_eq. intros [v Hv] Hnil.
  apply fmap_nil_inv, fmap_nil_inv in Hnil.
  assert ((k, v) ∈ filter (λ m : Item, k = m.1) l) as Hin
    by (apply list_elem_of_filter; done).
  rewrite Hnil in Hin. by apply elem_of_nil in Hin.
Qed.

Lemma partial_deltas_owned modify (os ns : AttributeSet) :
  ∃ cs, computeAndAddAttributeDeltas modify os ns = appendChanges modify cs
        ∧ Forall (ownedChange os ns) cs.
Proof.
  eexists. split; [apply computeAndAddAttributeDeltas_spec|].
  apply Forall_app. split; apply Forall_fmap, Forall_forall; intros k Hk;
    apply elem_of_util_List in Hk; [left|right]; by exists k.
Qed.

Lemma ownedChange_shape os ns c :
  ownedChange os ns c →
  ldap.Operation_ c ≠ ldap.ReplaceAttribute ∧ ldap.Vals (ldap.Modification c) ≠ [].
Proof.
  intros [[k [Hk ->]]|[k [Hk ->]]]; (split; [done|]); cbn;
    by apply valuesOf_nonempty.
Qed.
End scenario_claims.

Section not_found_and_read_back.
Context `{!GoRuntime}.

(** C4.  Not found: when the directory answers the search with result code
    32, [resourceLDAPObjectExists] returns [(false, nil)] and
    [readLDAPObject] with [updateState] clears the id and returns [nil];
    [resourceLDAPObjectAttributesRead] clears the id as well, but then
    returns the error of the search instead of [nil], in both copies of the
    resource. *)
Theorem not_found_semantics (meta : ldap.Conn) (st : State) (text : string) :
  (∀ request, ldap.Search meta (sent st) request = inr (ldap.Error 32 text)) →
  (∃ st', resourceLDAPObjectExists meta st = Returned (false, None) st')
  ∧ (∃ st', readLDAPObject meta true st = Returned None st' ∧ Id (d st') = "")
  ∧ (∃ st', ObjectAttributes.resourceLDAPObjectAttributesRead meta st
            = Returned (Some (ldap.Error 32 text)) st' ∧ Id (d st') = "")
  ∧ (∃ st', ObjectAttributesFull.resourceLDAPObjectAttributesRead meta st
            = Returned (Some (ldap.Error 32 text)) st' ∧ Id (d st') = "").
Proof.
  intros Hsearch. repeat split.
  - unfold resourceLDAPObjectExists. run. rewrite Hsearch. cbn. by eexists.
  - unfold readLDAPObject. run. rewrite Hsearch. cbn. by eexists.
  - unfold ObjectAttributes.resourceLDAPObjectAttributesRead. run.
    rewrite Hsearch. cbn. by eexists.
  - unfold ObjectAttributesFull.resourceLDAPObjectAttributesRead. run.
    rewrite Hsearch. cbn. by eexists.
Qed.

(** What the read of the partial-ownership resource leaves behind when the
    search finds the entry. *)
Lemma attributes_read_back (meta : ldap.Conn) (st : State) sr entry rest :
  ldap.Search meta (sent st) (readRequest (dn (d st))) = inl sr →
  ldap.Entries sr = entry :: rest →
  let o := prior (attributes (d st)) in
  let n := planned (attributes (d st)) in
  let unionSet :=
    if schema.Equal o n then Field_Get (attributes (d st)) else schema.Union o n in
  let set := schema.Intersection unionSet
               (ObjectAttributes.ldapSetOf (dn (d st)) (ldap.Attributes entry)) in
  ObjectAttributes.resourceLDAPObjectAttributesRead meta st
  = Returned None
      {| d := if (schema.Len set =? 0)%nat then with_Id "" (d st)
              else with_Id (dn (d st)) (with_attributes set (d st));
         sent := sent st ++ [ldap.SearchOf (readRequest (dn (d st)))] |}.
Proof.
  intros Hsearch Hentries. cbv zeta.
  unfold ObjectAttributes.resourceLDAPObjectAttributesRead. run.
  fold (readRequest (dn (d st))). rewrite Hsearch. run. rewrite Hentries.
  destruct (schema.Equal _ _); run; destruct (schema.Len _ =? 0)%nat; done.
Qed.

Lemma full_copy_read_back (meta : ldap.Conn) (st : State) sr entry rest :
  ldap.Search meta (sent st) (readRequest (dn (d st))) = inl sr →
  ldap.Entries sr = entry :: rest →
  let o := prior (attributes (d st)) in
  let n := planned (attributes (d st)) in
  let unionSet :=
    if schema.Equal o n then Field_Get (attributes (d st)) else schema.Union o n in
  ObjectAttributesFull.resourceLDAPObjectAttributesRead meta st
  = Returned None
      {| d := if (schema.Len unionSet =? 0)%nat then with_Id "" (d st)
              else with_Id (dn (d st)) (with_attributes unionSet (d st));
         sent := sent st ++ [ldap.SearchOf (readRequest (dn (d st)))] |}.
Proof.
  intros Hsearch Hentries. cbv zeta.
  unfold ObjectAttributesFull.resourceLDAPObjectAttributesRead. run.
  fold (readRequest (dn (d st))). rewrite Hsearch. run. rewrite Hentries.
  destruct (schema.Equal _ _); run;
    rewrite !Intersection_self; destruct (schema.Len _ =? 0)%nat; done.
Qed.

(** C5.  Read-back with nothing pending and the owned value 1 of [a] gone
    from the directory: the intersection of the owned set with the live set
    is empty; the resource built on the partial-ownership diff clears the
    id and returns [nil], as claim C5 has it ([attributes_read_back] is the
    general statement); the copy built on the full-ownership diff
    intersects the union with itself, stores the owned set unchanged and
    sets the id. *)
Theorem full_copy_read_keeps_vanished_values :
  let S := attributeSetOf [("a", "1")] in
  let st := start (attributesData "cn=foo,dc=x" S S) in
  schema.Intersection S
    (ObjectAttributes.ldapSetOf "cn=foo,dc=x" (ldap.Attributes noAttributeA)) = ∅
  ∧ ObjectAttributes.resourceLDAPObjectAttributesRead (directoryOf noAttributeA) st
    = Returned None {| d := with_Id "" (d st);
                       sent := [ldap.SearchOf (readRequest "cn=foo,dc=x")] |}
  ∧ ObjectAttributesFull.resourceLDAPObjectAttributesRead (directoryOf noAttributeA) st
    = Returned None {| d := with_Id "cn=foo,dc=x" (with_attributes S (d st));
                       sent := [ldap.SearchOf (readRequest "cn=foo,dc=x")] |}.
Proof.
  intros S st. split; [vm_compute; reflexivity|]. split.
  - erewrite attributes_read_back by reflexivity.
    vm_compute. reflexivity.
  - erewrite full_copy_read_back by reflexivity.
    vm_compute. reflexivity.
Qed.
End not_found_and_read_back.

Lemma not_found_semantics_witness :
  (∃ st', @resourceLDAPObjectExists absentDirectory
            (start (attributesData "cn=foo,dc=x" ∅ ∅)) = Returned (false, None) st')
  ∧ (∃ st', @readLDAPObject exampleRuntime absentDirectory true
              (start (attributesData "cn=foo,dc=x" ∅ ∅)) = Returned None st'
            ∧ Id (d st') = "")
  ∧ (∃ st', @ObjectAttributes.resourceLDAPObjectAttributesRead exampleRuntime absentDirectory
              (start (attributesData "cn=foo,dc=x" ∅ ∅))
            = Returned (Some (ldap.Error 32 "No Such Object")) st' ∧ Id (d st') = "")
  ∧ (∃ st', @ObjectAttributesFull.resourceLDAPObjectAttributesRead exampleRuntime absentDirectory
              (start (attributesData "cn=foo,dc=x" ∅ ∅))
            = Returned (Some (ldap.Error 32 "No Such Object")) st' ∧ Id (d st') = "").
Proof.
  apply (@not_found_semantics exampleRuntime absentDirectory
           (start (attributesData "cn=foo,dc=x" ∅ ∅)) "No Such Object").
  intros request. reflexivity.
Defined.

Section filter_additivity_codec.
Context `{!GoRuntime}.

Lemma stringSliceContains_true (haystack : list string) (needle : string) :
  stringSliceContains haystack needle = true ↔ needle ∈ haystack.
Proof.
  induction haystack as [|h haystack IH]; cbn.
  - split; [done|]. intros Hin. by apply elem_of_nil in Hin.
  - rewrite elem_of_cons. destruct (decide (needle = h)) as [->|Hne].
    + split; [by left|done].
    + rewrite IH. split; [by right|]. by intros [?|?].
Qed.

Lemma stringSliceContains_false (haystack : list string) (needle : string) :
  stringSliceContains haystack needle = false ↔ needle ∉ haystack.
Proof.
  rewrite <- stringSliceContains_true. by destruct (stringSliceContains haystack needle).
Qed.

(** Every directive of the full-ownership diff is for a name that the
    filter lets through. *)
Lemma deltas_tracked (os ns : AttributeSet) skip sel :
  Forall (λ c, tracked skip sel (nameOf c)) (deltas os ns skip sel).
Proof.
  unfold deltas. rewrite !Forall_app. repeat split;
    apply Forall_fmap, Forall_forall; intros k Hk;
    apply list_elem_of_filter in Hk; cbn; tauto.
Qed.

(** C7.  Filter precedence: a name that is on the list to skip and on the
    list to set, or that is missing from a non-empty list to set (whatever
    the list to skip holds), is skipped by [shouldSkipAttribute], and the
    full-ownership diff appends no directive for it, whatever the two
    attribute sets are. *)
Theorem filter_precedence (attributesToSkip attributesToSet : list string) (k : string) :
  (k ∈ attributesToSkip ∧ k ∈ attributesToSet)
  ∨ (attributesToSet ≠ [] ∧ k ∉ attributesToSet) →
  shouldSkipAttribute attributesToSkip attributesToSet k = true
  ∧ ∀ modify (os ns : AttributeSet),
      ∃ cs, computeAndAddDeltas modify os ns attributesToSkip attributesToSet
            = appendChanges modify cs
            ∧ Forall (λ c, nameOf c ≠ k) cs.
Proof.
  intros Hk.
  assert (shouldSkipAttribute attributesToSkip attributesToSet k = true) as Hskip.
  { unfold shouldSkipAttribute. destruct Hk as [[Hs Hin]|[Hne Hnin]].
    - apply stringSliceContains_true in Hs, Hin. rewrite Hs, Hin.
      destruct attributesToSkip; [done|].
      by destruct (0 <? length attributesToSet)%nat.
    - apply stringSliceContains_false in Hnin. rewrite Hnin.
      by destruct attributesToSet. }
  split; [done|]. intros modify os ns. eexists.
  split; [apply computeAndAddDeltas_spec|].
  eapply Forall_impl; [apply deltas_tracked|]. cbn. intros c Hc Heq.
  unfold tracked in Hc. congruence.
Qed.

Lemma list_filter_all {A} (P : A → Prop) `{!∀ x, Decision (P x)} (l : list A) :
  Forall P l → filter P l = l.
Proof.
  induction 1 as [|x l Hx _ IH]; [done|].
  by rewrite filter_cons, decide_True, IH.
Qed.

Lemma list_filter_none {A} (P : A → Prop) `{!∀ x, Decision (P x)} (l : list A) :
  Forall (λ x, ¬ P x) l → filter P l = [].
Proof.
  induction 1 as [|x l Hx _ IH]; [done|].
  by rewrite filter_cons, decide_False, IH.
Qed.

Lemma deltas_from_empty (S : AttributeSet) :
  deltas ∅ S [] []
  = (λ k, AddChange k (valuesOf k (schema.List S))) <$>
      util.List 1 (namesOf (schema.List S)).
Proof.
  unfold deltas, changedNames, isGone, isNew, removedNames, addedNames, keptNames.
  rewrite Difference_empty_l, Difference_empty_r, Intersection_empty_r.
  rewrite List_empty, namesOf_nil, util_List_empty, filter_nil.
  rewrite (list_filter_all _ (util.List 1 _)) by (by apply Forall_true).
  rewrite (list_filter_none _ (util.List 1 _))
    by (apply Forall_true; intros k [_ Hk]; done).
  cbn [list_to_set foldr]. change (util.List 2 _) with (util.List 2 ∅).
  rewrite util_List_empty. cbn. by rewrite app_nil_r.
Qed.

(** C8.  Additivity: from the empty old set (and with empty skip and
    select lists) the full-ownership diff appends Add directives only, one
    for each distinct name that occurs in [S] and no other, and the Add of a
    name carries all the values that [S] holds under that name, each as
    [toAttributeValue] puts it on the wire (unchanged, but for
    [unicodePwd]). *)
Theorem additivity (S : AttributeSet) (dn : string) :
  ∃ names,
    NoDup names
    ∧ (∀ k, k ∈ names ↔ ∃ v, (k, v) ∈ schema.List S)
    ∧ ldap.Changes (computeAndAddDeltas (ldap.NewModifyRequest dn) ∅ S [] [])
      = (λ k, AddChange k (toAttributeValue k <$> valuesUnder k S)) <$> names.
Proof.
  exists (util.List 1 (namesOf (schema.List S))). split; [apply NoDup_util_List|].
  split.
  - intros k. by rewrite elem_of_util_List, elem_of_namesOf.
  - rewrite computeAndAddDeltas_spec, deltas_from_empty. cbn.
    apply list_fmap_ext. intros _ k _. by rewrite valuesOf_eq.
Qed.












End filter_additivity_codec.

Lemma filter_precedence_witness :
  shouldSkipAttribute ["a"] ["a"] "a" = true
  ∧ ∀ modify (os ns : AttributeSet),
      ∃ cs, @computeAndAddDeltas exampleRuntime modify os ns ["a"] ["a"]
            = appendChanges modify cs
            ∧ Forall (λ c, nameOf c ≠ "a") cs.
Proof.
  apply (@filter_precedence exampleRuntime ["a"] ["a"] "a").
  left. split; apply list_elem_of_here.
Defined.


Section add_facts.
Context {A B : Type} (F : A → Z).
Implicit Types s : gmap string A.

Lemma lookup_Add_Some item s code x :
  schema.Add F item s !! code = Some x →
  s !! code = Some x ∨ x = item.
Proof.
  unfold schema.Add. destruct (s !! schema.hash F item) eqn:Hc; [by left|].
  destruct (decide (code = schema.hash F item)) as [->|Hne].
  - rewrite lookup_insert_eq. intros [= <-]. by right.
  - rewrite lookup_insert_ne by done. by left.
Qed.

Lemma lookup_Add_preserved item s code x :
  s !! code = Some x → schema.Add F item s !! code = Some x.
Proof.
  intros Hx. unfold schema.Add. destruct (s !! schema.hash F item) eqn:Hc; [done|].
  rewrite lookup_insert_ne; [done|]. intros <-. congruence.
Qed.

Lemma lookup_Add_hash item s : is_Some (schema.Add F item s !! schema.hash F item).
Proof.
  unfold schema.Add. destruct (s !! schema.hash F item) eqn:Hc.
  - rewrite Hc. by eexists.
  - rewrite lookup_insert_eq. by eexists.
Qed.

(** Adding the items [g v] for the values [v] of a list, one by one. *)
Lemma foldl_Add_Some (g : B → A) (l : list B) s code x :
  foldl (λ s v, schema.Add F (g v) s) s l !! code = Some x →
  s !! code = Some x ∨ ∃ v, v ∈ l ∧ x = g v.
Proof.
  revert s. induction l as [|v l IH]; intros s; cbn; [by left|].
  intros Hx. apply IH in Hx as [Hx|[v' [Hv' ->]]].
  - apply lookup_Add_Some in Hx as [Hx| ->]; [by left|].
    right. exists v. split; [left|done].
  - right. exists v'. split; [by right|done].
Qed.

Lemma foldl_Add_preserved (g : B → A) (l : list B) s code :
  is_Some (s !! code) →
  is_Some (foldl (λ s v, schema.Add F (g v) s) s l !! code).
Proof.
  revert s. induction l as [|v l IH]; intros s; cbn; [done|].
  intros [x Hx]. apply IH. exists x. by apply lookup_Add_preserved.
Qed.

Lemma foldl_Add_hash (g : B → A) (l : list B) s v :
  v ∈ l →
  is_Some (foldl (λ s v, schema.Add F (g v) s) s l !! schema.hash F (g v)).
Proof.
  revert s. induction l as [|v' l IH]; intros s Hv; [by apply elem_of_nil in Hv|].
  cbn. apply elem_of_cons in Hv as [->|Hv].
  - apply foldl_Add_preserved, lookup_Add_hash.
  - by apply IH.
Qed.
End add_facts.

Section keyed_facts.
Context {A B : Type} (F : A → Z).
Implicit Types s : gmap string A.

(** [Add] keeps every item under its own hash code. *)
Lemma lookup_Add_keyed item s :
  (∀ code x, s !! code = Some x → schema.hash F x = code) →
  ∀ code x, schema.Add F item s !! code = Some x → schema.hash F x = code.
Proof.
  intros Hs code x Hx. apply lookup_Add_Some in Hx as Hcase.
  destruct Hcase as [Hold| ->]; [by apply Hs|].
  unfold schema.Add in Hx. destruct (s !! schema.hash F item) eqn:Hc; [by apply Hs|].
  destruct (decide (code = schema.hash F item)) as [->|Hne]; [done|].
  rewrite lookup_insert_ne in Hx by done. by apply Hs.
Qed.

Lemma foldl_Add_keyed (g : B → A) (l : list B) s :
  (∀ code x, s !! code = Some x → schema.hash F x = code) →
  ∀ code x, foldl (λ s v, schema.Add F (g v) s) s l !! code = Some x →
            schema.hash F x = code.
Proof.
  revert s. induction l as [|v l IH]; intros s Hs; cbn; [done|].
  apply IH. by apply lookup_Add_keyed.
Qed.
End keyed_facts.

Section read_facts.
Context `{!GoRuntime}.

(** The set that a loop over the attributes of an entry builds when it adds,
    value by value, the attributes that [keep] selects. *)
Lemma foldl_kept_Some (f : AttributeSet → ldap.EntryAttribute → AttributeSet)
    (keep : ldap.EntryAttribute → bool) attrs (set : AttributeSet) code x :
  (∀ set attribute, f set attribute =
     if keep attribute
     then foldl (λ set value, schema.Add attributeHash (ldap.Name attribute, value) set)
                set (ldap.Values attribute)
     else set) →
  foldl f set attrs !! code = Some x →
  set !! code = Some x
  ∨ ∃ attribute value, attribute ∈ attrs ∧ keep attribute = true
                       ∧ value ∈ ldap.Values attribute
                       ∧ x = (ldap.Name attribute, value).
Proof.
  intros Hf. revert set. induction attrs as [|a attrs IH]; intros set; cbn; [by left|].
  intros Hx. apply IH in Hx as [Hx|[a' [v [Ha' [Hk [Hv ->]]]]]].
  - rewrite Hf in Hx. destruct (keep a) eqn:Hk; [|by left].
    apply foldl_Add_Some in Hx as [Hx|[v [Hv ->]]]; [by left|].
    right. exists a, v. split; [left|done].
  - right. exists a', v. split; [by right|done].
Qed.

Lemma foldl_kept_preserved (f : AttributeSet → ldap.EntryAttribute → AttributeSet)
    (keep : ldap.EntryAttribute → bool) attrs (set : AttributeSet) code :
  (∀ set attribute, f set attribute =
     if keep attribute
     then foldl (λ set value, schema.Add attributeHash (ldap.Name attribute, value) set)
                set (ldap.Values attribute)
     else set) →
  is_Some (set !! code) → is_Some (foldl f set attrs !! code).
Proof.
  intros Hf. revert set. induction attrs as [|a attrs IH]; intros set; cbn; [done|].
  intros Hs. apply IH. rewrite Hf. destruct (keep a); [|done].
  by apply foldl_Add_preserved.
Qed.

Lemma foldl_kept_hash (f : AttributeSet → ldap.EntryAttribute → AttributeSet)
    (keep : ldap.EntryAttribute → bool) attrs (set : AttributeSet) attribute value :
  (∀ set attribute, f set attribute =
     if keep attribute
     then foldl (λ set value, schema.Add attributeHash (ldap.Name attribute, value) set)
                set (ldap.Values attribute)
     else set) →
  attribute ∈ attrs → keep attribute = true → value ∈ ldap.Values attribute →
  is_Some (foldl f set attrs
             !! schema.hash attributeHash (ldap.Name attribute, value)).
Proof.
  intros Hf. revert set. induction attrs as [|a attrs IH]; intros set Ha Hk Hv;
    [by apply elem_of_nil in Ha|].
  cbn. apply elem_of_cons in Ha as [->|Ha].
  - apply (foldl_kept_preserved _ keep); [done|]. rewrite Hf, Hk.
    by apply (foldl_Add_hash attributeHash (λ value, (ldap.Name a, value))).
  - by apply IH.
Qed.

Lemma readAttributes_step dn skip sel (set : AttributeSet) attribute :
  (if stringSliceContains skip (ldap.Name attribute) then set
   else if (0 <? length sel)%nat && negb (stringSliceContains sel (ldap.Name attribute))
   then set
   else if isRDN dn attribute then set
   else foldl (λ set value, schema.Add attributeHash (ldap.Name attribute, value) set)
              set (ldap.Values attribute))
  = if readable skip sel attribute && negb (isRDN dn attribute)
    then foldl (λ set value, schema.Add attributeHash (ldap.Name attribute, value) set)
               set (ldap.Values attribute)
    else set.
Proof.
  unfold readable. destruct (stringSliceContains skip _); [done|].
  destruct ((0 <? length sel)%nat && _); [done|].
  by destruct (isRDN dn attribute).
Qed.

Lemma isRDN_true dn attribute :
  isRDN dn attribute = true
  ↔ ∃ value, ldap.Values attribute = [value]
             ∧ String.prefix (ldap.Name attribute +:+ "=" +:+ value) dn = true.
Proof.
  unfold isRDN. destruct (ldap.Values attribute) as [|v [|v' vs]].
  - split; [done|]. by intros [? [? ?]].
  - split; [by exists v|]. by intros [? [[= <-] ?]].
  - split; [done|]. by intros [? [? ?]].
Qed.
End read_facts.

Section rdn.
Context `{!GoRuntime}.

Lemma readAttributes_Some dn skip sel attrs code x :
  readAttributes dn skip sel attrs !! code = Some x →
  ∃ attribute value, attribute ∈ attrs
                     ∧ readable skip sel attribute && negb (isRDN dn attribute) = true
                     ∧ value ∈ ldap.Values attribute
                     ∧ x = (ldap.Name attribute, value).
Proof.
  intros Hx. unfold readAttributes in Hx.
  apply (foldl_kept_Some _ (λ a, readable skip sel a && negb (isRDN dn a)))
    in Hx as [Hx|Hx]; [by rewrite lookup_empty in Hx|done|].
  intros set attribute. apply readAttributes_step.
Qed.

Lemma ldapSetOf_Some dn attrs code x :
  ObjectAttributes.ldapSetOf dn attrs !! code = Some x →
  ∃ attribute value, attribute ∈ attrs
                     ∧ negb (isRDN dn attribute) = true
                     ∧ value ∈ ldap.Values attribute
                     ∧ x = (ldap.Name attribute, value).
Proof.
  intros Hx. unfold ObjectAttributes.ldapSetOf in Hx.
  apply (foldl_kept_Some _ (λ a, negb (isRDN dn a))) in Hx as [Hx|Hx];
    [by rewrite lookup_empty in Hx|done|].
  intros set attribute. by destruct (isRDN dn attribute).
Qed.

Lemma foldl_kept_keyed (f : AttributeSet → ldap.EntryAttribute → AttributeSet)
    (keep : ldap.EntryAttribute → bool) attrs (set : AttributeSet) :
  (∀ set attribute, f set attribute =
     if keep attribute
     then foldl (λ set value, schema.Add attributeHash (ldap.Name attribute, value) set)
                set (ldap.Values attribute)
     else set) →
  (∀ code x, set !! code = Some x → schema.hash attributeHash x = code) →
  ∀ code x, foldl f set attrs !! code = Some x → schema.hash attributeHash x = code.
Proof.
  intros Hf. revert set. induction attrs as [|a attrs IH]; intros set Hs; cbn; [done|].
  apply IH. rewrite Hf. destruct (keep a); [|done].
  by apply (foldl_Add_keyed attributeHash (λ value, (ldap.Name a, value))).
Qed.

Lemma readAttributes_keyed dn skip sel attrs code x :
  readAttributes dn skip sel attrs !! code = Some x →
  schema.hash attributeHash x = code.
Proof.
  unfold readAttributes.
  apply (foldl_kept_keyed _ (λ a, readable skip sel a && negb (isRDN dn a))).
  - intros set attribute. apply readAttributes_step.
  - intros c y Hy. by rewrite lookup_empty in Hy.
Qed.

Lemma ldapSetOf_keyed dn attrs code x :
  ObjectAttributes.ldapSetOf dn attrs !! code = Some x →
  schema.hash attributeHash x = code.
Proof.
  unfold ObjectAttributes.ldapSetOf.
  apply (foldl_kept_keyed _ (λ a, negb (isRDN dn a))).
  - intros set attribute. by destruct (isRDN dn attribute).
  - intros c y Hy. by rewrite lookup_empty in Hy.
Qed.

(** C6, as amended.  RDN exclusion on read-back, for an attribute of the
    entry that the filter of [readLDAPObject] lets through (the
    partial-ownership read has no filter): [isRDN] holds exactly when the
    attribute has one value and name=value is a prefix of the DN.  An
    attribute that is not the RDN is added value by value with [Set.Add]:
    under the hash code of each of its pairs the rebuilt set holds an item
    with that hash code, and the item is the pair itself when no other pair
    of the entry has the same hash code (the first pair added under a code
    stays).  And every item of the rebuilt set is a value of an attribute
    that passed the filter and is not the RDN, so that an RDN attribute adds
    nothing. *)
Theorem rdn_exclusion dn attributesToSkip attributesToSet attrs attribute :
  attribute ∈ attrs →
  readable attributesToSkip attributesToSet attribute = true →
  (isRDN dn attribute = true
   ↔ ∃ value, ldap.Values attribute = [value]
              ∧ String.prefix (ldap.Name attribute +:+ "=" +:+ value) dn = true)
  ∧ (isRDN dn attribute = false →
     ∀ value, value ∈ ldap.Values attribute →
       ∃ x y,
         readAttributes dn attributesToSkip attributesToSet attrs
           !! schema.hash attributeHash (ldap.Name attribute, value) = Some x
         ∧ ObjectAttributes.ldapSetOf dn attrs
             !! schema.hash attributeHash (ldap.Name attribute, value) = Some y
         ∧ schema.hash attributeHash x
           = schema.hash attributeHash (ldap.Name attribute, value)
         ∧ schema.hash attributeHash y
           = schema.hash attributeHash (ldap.Name attribute, value)
         ∧ ((∀ a v, a ∈ attrs → v ∈ ldap.Values a →
               schema.hash attributeHash (ldap.Name a, v)
               = schema.hash attributeHash (ldap.Name attribute, value) →
               (ldap.Name a, v) = (ldap.Name attribute, value)) →
            x = (ldap.Name attribute, value) ∧ y = (ldap.Name attribute, value)))
  ∧ (∀ x, x ∈ schema.List (readAttributes dn attributesToSkip attributesToSet attrs) →
       ∃ a value, a ∈ attrs ∧ readable attributesToSkip attributesToSet a = true
                  ∧ isRDN dn a = false ∧ value ∈ ldap.Values a
                  ∧ x = (ldap.Name a, value))
  ∧ (∀ x, x ∈ schema.List (ObjectAttributes.ldapSetOf dn attrs) →
       ∃ a value, a ∈ attrs ∧ isRDN dn a = false ∧ value ∈ ldap.Values a
                  ∧ x = (ldap.Name a, value)).
Proof.
  intros Hin Hread. split; [apply isRDN_true|]. split; [|split].
  - intros Hrdn value Hvalue.
    assert (is_Some (readAttributes dn attributesToSkip attributesToSet attrs
                       !! schema.hash attributeHash (ldap.Name attribute, value)))
      as [x Hx].
    { unfold readAttributes.
      apply (foldl_kept_hash _ (λ a, readable attributesToSkip attributesToSet a
                                     && negb (isRDN dn a))); [|done| |done].
      - intros set a. apply readAttributes_step.
      - by rewrite Hread, Hrdn. }
    assert (is_Some (ObjectAttributes.ldapSetOf dn attrs
                       !! schema.hash attributeHash (ldap.Name attribute, value)))
      as [y Hy].
    { unfold ObjectAttributes.ldapSetOf.
      apply (foldl_kept_hash _ (λ a, negb (isRDN dn a))); [|done| |done].
      - intros set a. by destruct (isRDN dn a).
      - by rewrite Hrdn. }
    exists x, y. split; [done|]. split; [done|].
    pose proof (readAttributes_keyed _ _ _ _ _ _ Hx) as Hkx.
    pose proof (ldapSetOf_keyed _ _ _ _ Hy) as Hky.
    split; [done|]. split; [done|]. intros Hfree.
    apply readAttributes_Some in Hx as [a [v [Ha [_ [Hv ->]]]]].
    apply ldapSetOf_Some in Hy as [a' [v' [Ha' [_ [Hv' ->]]]]].
    split; by apply Hfree.
  - intros x [code Hx]%elem_of_List.
    apply readAttributes_Some in Hx as [a [v [Ha [Hk [Hv ->]]]]].
    apply andb_true_iff in Hk as [Hk1 Hk2]. apply negb_true_iff in Hk2.
    by exists a, v.
  - intros x [code Hx]%elem_of_List.
    apply ldapSetOf_Some in Hx as [a [v [Ha [Hk [Hv ->]]]]].
    apply negb_true_iff in Hk. by exists a, v.
Qed.
End rdn.

Lemma rdn_exclusion_counterexample :
  (ldap.Values {| ldap.Name := "objectClass"; ldap.Values := ["top"; "person"] |}
   = ["top"; "person"]
   ∧ ∃ st', @readLDAPObject exampleRuntime (directoryOf withClasses) true
              (start (objectData "cn=foo,dc=x" ∅ ∅ ∅ ∅ ∅)) = Returned None st'
            ∧ (schema.List <$> written (attributes (d st'))) = Some [("mail", "a@x")])
  ∧ (readable ["objectClass"] [] collidingValues = true
     ∧ isRDN "cn=foo,dc=x" collidingValues = false
     ∧ schema.List (@readAttributes exampleRuntime "cn=foo,dc=x" ["objectClass"] []
                      [collidingValues])
       = [("a", "7gZvkoIRS")]
     ∧ schema.List (@ObjectAttributes.ldapSetOf exampleRuntime "cn=foo,dc=x"
                      [collidingValues])
       = [("a", "7gZvkoIRS")]).
Proof.
  split.
  - split; [reflexivity|]. eexists. split; [vm_compute; reflexivity|].
    vm_compute. reflexivity.
  - split; [reflexivity|]. split; [reflexivity|]. split; vm_compute; reflexivity.
Qed.

Section object_class.
Context `{!GoRuntime}.

Lemma skip_objectClass skip sel :
  shouldSkipAttribute ("objectClass" :: skip) sel "objectClass" = true.
Proof.
  unfold shouldSkipAttribute. destruct (_ && _); [done|].
  cbn. by rewrite decide_True.
Qed.

Lemma readLDAPObject_sent (meta : ldap.Conn) updateState st :
  sent (final (readLDAPObject meta updateState st))
  = sent st ++ [ldap.SearchOf (readRequest (dn (d st)))].
Proof.
  unfold readLDAPObject. run. fold (readRequest (dn (d st))).
  destruct (ldap.Search meta _ _) as [sr|err]; run.
  - destruct (ldap.Entries sr); run; [done|].
    destruct (object_classes (d st)); run;
      destruct (skip_attributes (d st)); run; try done;
      destruct (select_attributes (d st)); run; done.
  - destruct (noSuchObject err && updateState); run; done.
Qed.

Lemma readLDAPObject_written (meta : ldap.Conn) updateState st set :
  written (attributes (d (final (readLDAPObject meta updateState st)))) = Some set →
  written (attributes (d st)) = Some set
  ∨ ∃ entry skip sel,
      set = readAttributes (dn (d st)) ("objectClass" :: skip) sel (ldap.Attributes entry).
Proof.
  unfold readLDAPObject. run.
  destruct (ldap.Search meta _ _) as [sr|err]; run.
  - destruct (ldap.Entries sr) as [|entry ?]; run; [by left|].
    destruct (object_classes (d st)); run;
      destruct (skip_attributes (d st)) as [skip|]; run; try (by left);
      destruct (select_attributes (d st)) as [sel|]; run; try (by left);
      intros [= <-]; right; by exists entry, (schema.List skip), (schema.List sel).
  - destruct (noSuchObject err && updateState); run; by left.
Qed.

Lemma readAttributes_no_objectClass dn skip sel attrs x :
  x ∈ schema.List (readAttributes dn ("objectClass" :: skip) sel attrs) →
  x.1 ≠ "objectClass".
Proof.
  intros [code Hx]%elem_of_List.
  apply readAttributes_Some in Hx as [a [v [_ [Hk [_ ->]]]]].
  apply andb_true_iff in Hk as [Hk _]. unfold readable in Hk.
  apply andb_true_iff in Hk as [Hk _]. apply negb_true_iff in Hk.
  apply stringSliceContains_false in Hk. cbn. intros Heq. apply Hk.
  rewrite Heq. left.
Qed.

Lemma resourceLDAPObjectRead_sent (meta : ldap.Conn) st :
  sent (final (resourceLDAPObjectRead meta st))
  = sent st ++ [ldap.SearchOf (readRequest (dn (d st)))].
Proof. apply readLDAPObject_sent. Qed.

(** The modify requests that the update of [ldap_object] sends: the Replace
    of the object classes, if they changed, and then the directives of the
    attribute diff, none of which is for [objectClass]. *)
Lemma resourceLDAPObjectUpdate_sends (meta : ldap.Conn) st req :
  ldap.ModifyOf req ∈ sent (final (resourceLDAPObjectUpdate meta st)) →
  ldap.ModifyOf req ∈ sent st
  ∨ ∃ pre cs,
      ldap.Changes req = pre ++ cs
      ∧ (pre = [] ∨ ∃ classes, pre = [ReplaceChange "objectClass" classes])
      ∧ Forall (λ c, nameOf c ≠ "objectClass") cs.
Proof.
  assert (∀ m0 pre (st0 : State),
            sent st0 = sent st →
            ldap.Changes m0 = pre →
            (pre = [] ∨ ∃ classes, pre = [ReplaceChange "objectClass" classes]) →
            ∀ skip sel,
            ldap.ModifyOf req ∈ sent (final (
              (changed ← HasChange_attributes;
               modify ←
                 (if changed : bool then
                    '(o, n) ← getd (λ d, Field_GetChange (attributes d));
                    mret (computeAndAddDeltas m0 o n
                            (["objectClass"] ++ schema.List skip) (schema.List sel))
                  else mret m0);
               if (0 <? length (ldap.Changes modify))%nat then
                 err ← client.Modify meta modify;
                 match err with
                 | Some err => mret (Some err)
                 | None => resourceLDAPObjectRead meta
                 end
               else resourceLDAPObjectRead meta) st0)) →
            ldap.ModifyOf req ∈ sent st
            ∨ ∃ pre cs,
                ldap.Changes req = pre ++ cs
                ∧ (pre = [] ∨ ∃ classes, pre = [ReplaceChange "objectClass" classes])
                ∧ Forall (λ c, nameOf c ≠ "objectClass") cs) as Hrest.
  { intros m0 pre st0 Hsent Hm0 Hpre skip sel. run.
    set (m := if negb (schema.Equal (prior (attributes (d st0))) (planned (attributes (d st0))))
              then computeAndAddDeltas m0 (prior (attributes (d st0)))
                     (planned (attributes (d st0)))
                     (["objectClass"] ++ schema.List skip) (schema.List sel)
              else m0).
    assert (∃ cs, ldap.Changes m = pre ++ cs
                  ∧ Forall (λ c, nameOf c ≠ "objectClass") cs) as [cs [Hm Hcs]].
    { subst m. destruct (schema.Equal _ _); cbn [negb].
      - exists []. by rewrite app_nil_r.
      - rewrite computeAndAddDeltas_spec. eexists. cbn. rewrite Hm0.
        split; [done|]. eapply Forall_impl; [apply deltas_tracked|].
        cbn. intros c Hc Heq. unfold tracked in Hc. rewrite Heq in Hc.
        cbn in Hc. by rewrite skip_objectClass in Hc. }
    assert (∀ r, ldap.ModifyOf req ∈ (sent st0 ++ r) →
                 (∀ x, x ∈ r → x = ldap.ModifyOf m ∨ ∃ q, x = ldap.SearchOf q) →
                 ldap.ModifyOf req ∈ sent st
                 ∨ ∃ pre cs,
                     ldap.Changes req = pre ++ cs
                     ∧ (pre = [] ∨ ∃ classes, pre = [ReplaceChange "objectClass" classes])
                     ∧ Forall (λ c, nameOf c ≠ "objectClass") cs) as Hcase.
    { intros r [Hin|Hin]%elem_of_app Hr; [left; by rewrite <- Hsent|].
      apply Hr in Hin as [[= ->]|[q [=]]]. right. by exists pre, cs. }
    destruct (schema.Equal _ _); cbn [negb] in *; run;
      destruct (0 <? length (ldap.Changes _))%nat; run;
      try destruct (ldap.Modify meta _ _); run;
      rewrite ?resourceLDAPObjectRead_sent; cbn [sent d]; rewrite <- ?app_assoc;
      intros Hin; apply Hcase in Hin; try done;
      intros x Hx; set_solver. }
  unfold resourceLDAPObjectUpdate. run.
  destruct (skip_attributes (d st)) as [skip|]; run; [|by left].
  destruct (select_attributes (d st)) as [sel|]; run; [|by left].
  destruct (object_classes (d st)) as [f|] eqn:Hoc; run.
  - destruct (schema.Equal (prior f) (planned f)); cbn [negb]; run.
    + apply (Hrest _ [] st); [done|done|by left].
    + rewrite Hoc. cbn [fmap option_fmap option_map]. run.
      eapply (Hrest _ _ st); [done|reflexivity|].
      right. by eexists.
  - apply (Hrest _ [] st); [done|done|by left].
Qed.

Lemma foldl_Attribute (g : string → list string) l request :
  ldap.AddRequest_Attributes
    (foldl (λ request name, ldap.Attribute_ request name (g name)) request l)
  = ldap.AddRequest_Attributes request
    ++ ((λ name, {| ldap.Attribute_Type := name; ldap.Attribute_Vals := g name |}) <$> l).
Proof.
  revert request. induction l as [|name l IH]; intros request; cbn.
  - by rewrite app_nil_r.
  - rewrite IH. cbn. by rewrite <- app_assoc.
Qed.

Lemma createAttributes_names skip sel (l : list Item) name :
  is_Some (createAttributes skip sel l !! name) → stringSliceContains skip name = false.
Proof.
  unfold createAttributes.
  assert (∀ m : gmap string (list string),
            (∀ name, is_Some (m !! name) → stringSliceContains skip name = false) →
            is_Some (foldl (λ m (attribute : Item),
                              let '(name, value) := attribute in
                              if stringSliceContains skip name then m
                              else if (0 <? length sel)%nat
                                      && negb (stringSliceContains sel name)
                              then m
                              else
                                let v := toAttributeValue name value in
                                <[name := default [] (m !! name) ++ [v]]> m)
                           m l !! name) →
            stringSliceContains skip name = false) as Hgen.
  { induction l as [|[n v] l IH]; intros m Hm; cbn [foldl]; [apply Hm|].
    apply IH. intros name'.
    destruct (stringSliceContains skip n) eqn:Hn; [apply Hm|].
    destruct (_ && _); [apply Hm|].
    destruct (decide (name' = n)) as [->|Hne]; [done|].
    rewrite lookup_insert_ne by done. apply Hm. }
  apply Hgen. intros name'. rewrite lookup_empty. by intros [? ?].
Qed.

(** The add requests that the creation of [ldap_object] sends: the object
    classes first, then attributes none of which is [objectClass]. *)
Lemma resourceLDAPObjectCreate_sends (meta : ldap.Conn) st req :
  ldap.AddOf req ∈ sent (final (resourceLDAPObjectCreate meta st)) →
  ldap.AddOf req ∈ sent st
  ∨ ∃ classes rest,
      ldap.AddRequest_Attributes req
      = {| ldap.Attribute_Type := "objectClass"; ldap.Attribute_Vals := classes |} :: rest
      ∧ Forall (λ a, ldap.Attribute_Type a ≠ "objectClass") rest.
Proof.
  unfold resourceLDAPObjectCreate. run.
  destruct (object_classes (d st)) as [f|]; cbn [fmap option_fmap option_map]; run;
    [|by left].
  destruct (skip_attributes (d st)) as [skip|]; run; [|by left].
  destruct (select_attributes (d st)) as [sel|]; run; [|by left].
  match goal with
  | |- context [ldap.Add_ meta (sent st) ?r] => set (request := r)
  end.
  assert (∃ classes rest,
            ldap.AddRequest_Attributes request
            = {| ldap.Attribute_Type := "objectClass"; ldap.Attribute_Vals := classes |} :: rest
            ∧ Forall (λ a, ldap.Attribute_Type a ≠ "objectClass") rest) as Hreq.
  { subst request. destruct (0 <? length _)%nat.
    - rewrite foldl_Attribute. cbn. eexists _, _. split; [done|].
      apply Forall_fmap, Forall_forall. intros name Hname. cbn.
      rewrite range_order_perm in Hname.
      apply list_elem_of_fmap in Hname as [[n vs] [-> Hin]].
      apply elem_of_map_to_list in Hin. cbn. intros Heq.
      assert (stringSliceContains (["objectClass"] ++ schema.List skip) n = false) as Hn
        by (eapply createAttributes_names; by eexists).
      rewrite Heq in Hn. cbn in Hn. by rewrite decide_True in Hn.
    - cbn. by eexists _, _. }
  destruct (ldap.Add_ meta (sent st) request); run;
    rewrite ?resourceLDAPObjectRead_sent; cbn [sent d]; rewrite <- ?app_assoc;
    intros [Hin|Hin]%elem_of_app; try (by left);
    right; set_solver.
Qed.

(** C10.  In [ldap_object], [objectClass] heads the list of names to skip,
    whatever [skip_attributes] and [select_attributes] hold.  So the
    attribute diff appends no directive for [objectClass]; the add request
    of the creation names [objectClass] once, with the object classes, ahead
    of the attributes; a modify request of the update holds at most one
    change for [objectClass], the Replace of the object classes, ahead of
    the directives of the attribute diff; and no item of the attribute set
    that a read stores is named [objectClass]. *)
Theorem objectClass_is_never_an_attribute (meta : ldap.Conn) (st : State) :
  (∀ skip sel modify (os ns : AttributeSet),
     ∃ cs, computeAndAddDeltas modify os ns ("objectClass" :: skip) sel
           = appendChanges modify cs
           ∧ Forall (λ c, nameOf c ≠ "objectClass") cs)
  ∧ (∀ req,
       ldap.AddOf req ∈ sent (final (resourceLDAPObjectCreate meta st)) →
       ldap.AddOf req ∈ sent st
       ∨ ∃ classes rest,
           ldap.AddRequest_Attributes req
           = {| ldap.Attribute_Type := "objectClass"; ldap.Attribute_Vals := classes |}
             :: rest
           ∧ Forall (λ a, ldap.Attribute_Type a ≠ "objectClass") rest)
  ∧ (∀ req,
       ldap.ModifyOf req ∈ sent (final (resourceLDAPObjectUpdate meta st)) →
       ldap.ModifyOf req ∈ sent st
       ∨ ∃ pre cs,
           ldap.Changes req = pre ++ cs
           ∧ (pre = [] ∨ ∃ classes, pre = [ReplaceChange "objectClass" classes])
           ∧ Forall (λ c, nameOf c ≠ "objectClass") cs)
  ∧ (∀ updateState set,
       written (attributes (d (final (readLDAPObject meta updateState st)))) = Some set →
       written (attributes (d st)) = Some set
       ∨ ∀ x, x ∈ schema.List set → x.1 ≠ "objectClass").
Proof.
  split; [|split; [|split]].
  - intros skip sel modify os ns. eexists. split; [apply computeAndAddDeltas_spec|].
    eapply Forall_impl; [apply deltas_tracked|].
    cbn. intros c Hc Heq. unfold tracked in Hc. rewrite Heq in Hc.
    by rewrite skip_objectClass in Hc.
  - apply resourceLDAPObjectCreate_sends.
  - apply resourceLDAPObjectUpdate_sends.
  - intros updateState set Hset.
    apply readLDAPObject_written in Hset as [Hset|[entry [skip [sel ->]]]]; [by left|].
    right. intros x. apply readAttributes_no_objectClass.
Qed.

Lemma attributesRead_sent (meta : ldap.Conn) st :
  sent (final (ObjectAttributes.resourceLDAPObjectAttributesRead meta st))
  = sent st ++ [ldap.SearchOf (readRequest (dn (d st)))].
Proof.
  unfold ObjectAttributes.resourceLDAPObjectAttributesRead. run.
  fold (readRequest (dn (d st))).
  destruct (ldap.Search meta _ _) as [sr|err]; run.
  - destruct (ldap.Entries sr); run; [done|].
    destruct (schema.Equal _ _); run; destruct (schema.Len _ =? 0)%nat; done.
  - destruct (noSuchObject err); run; done.
Qed.

(** The modify requests that the update and the deletion of the
    partial-ownership resource send hold changes of the partial-ownership
    diff only. *)
Lemma attributesUpdate_sends (meta : ldap.Conn) st req :
  ldap.ModifyOf req
    ∈ sent (final (ObjectAttributes.resourceLDAPObjectAttributesUpdate meta st)) →
  ldap.ModifyOf req ∈ sent st
  ∨ Forall (ownedChange (prior (attributes (d st))) (planned (attributes (d st))))
           (ldap.Changes req).
Proof.
  unfold ObjectAttributes.resourceLDAPObjectAttributesUpdate. run.
  destruct (schema.Equal _ _); cbn [negb]; run.
  - cbn. rewrite attributesRead_sent. cbn [sent d].
    intros [Hin|Hin]%elem_of_app; [by left|]. set_solver.
  - destruct (partial_deltas_owned (ldap.NewModifyRequest (dn (d st)))
                (prior (attributes (d st))) (planned (attributes (d st))))
      as [cs [-> Hcs]].
    destruct (0 <? length _)%nat; run;
      try destruct (ldap.Modify meta _ _); run;
      rewrite ?attributesRead_sent; cbn [sent d]; rewrite <- ?app_assoc;
      intros [Hin|Hin]%elem_of_app; try (by left);
      right; set_solver.
Qed.

Lemma attributesDelete_sends (meta : ldap.Conn) st req :
  ldap.ModifyOf req
    ∈ sent (final (ObjectAttributes.resourceLDAPObjectAttributesDelete meta st)) →
  ldap.ModifyOf req ∈ sent st
  ∨ Forall (ownedChange (Field_Get (attributes (d st))) ∅) (ldap.Changes req).
Proof.
  unfold ObjectAttributes.resourceLDAPObjectAttributesDelete. run.
  destruct (partial_deltas_owned (ldap.NewModifyRequest (dn (d st)))
              (default (planned (attributes (d st))) (written (attributes (d st)))) ∅)
    as [cs [-> Hcs]].
  destruct (0 <? length _)%nat; run;
    try destruct (ldap.Modify meta _ _); run;
    intros Hin; try (by left);
    apply elem_of_app in Hin as [Hin|Hin]; try (by left); right; set_solver.
Qed.
End object_class.

(** No other value of the entry [withClasses] has the hash code of its mail
    address. *)
Lemma withClasses_mail_code a v :
  a ∈ ldap.Attributes withClasses → v ∈ ldap.Values a →
  schema.hash (@attributeHash exampleRuntime) (ldap.Name a, v)
  = schema.hash (@attributeHash exampleRuntime) ("mail", "a@x") →
  (ldap.Name a, v) = ("mail", "a@x").
Proof.
  assert (∀ k w, schema.hash (@attributeHash exampleRuntime) (k, w)
                 ≠ schema.hash (@attributeHash exampleRuntime) ("mail", "a@x") →
                 schema.hash (@attributeHash exampleRuntime) (k, w)
                 = schema.hash (@attributeHash exampleRuntime) ("mail", "a@x") →
                 (k, w) = ("mail", "a@x")) as Hne
    by (intros k w Hne Heq; destruct (Hne Heq)).
  intros Ha Hv.
  apply elem_of_cons in Ha as [->|Ha].
  { apply elem_of_cons in Hv as [->|Hv].
    { apply Hne. vm_compute. intros [=]. }
    apply elem_of_cons in Hv as [->|Hv]; [|apply elem_of_nil in Hv; destruct Hv].
    apply Hne. vm_compute. intros [=]. }
  apply elem_of_cons in Ha as [->|Ha].
  { apply elem_of_cons in Hv as [->|Hv]; [|apply elem_of_nil in Hv; destruct Hv].
    apply Hne. vm_compute. intros [=]. }
  apply elem_of_cons in Ha as [->|Ha]; [|apply elem_of_nil in Ha; destruct Ha].
  apply elem_of_cons in Hv as [->|Hv]; [intros _; reflexivity|].
  apply elem_of_nil in Hv; destruct Hv.
Qed.

Lemma rdn_exclusion_witness :
  isRDN "cn=foo,dc=x" {| ldap.Name := "cn"; ldap.Values := ["foo"] |} = true
  ∧ (∀ x, x ∈ schema.List (@readAttributes exampleRuntime "cn=foo,dc=x" ["objectClass"] []
                             (ldap.Attributes withClasses)) →
          x.1 ≠ "cn")
  ∧ @readAttributes exampleRuntime "cn=foo,dc=x" ["objectClass"] []
      (ldap.Attributes withClasses)
      !! schema.hash (@attributeHash exampleRuntime) ("mail", "a@x")
    = Some ("mail", "a@x").
Proof.
  pose proof (@rdn_exclusion exampleRuntime "cn=foo,dc=x" ["objectClass"] []
                (ldap.Attributes withClasses)
                {| ldap.Name := "cn"; ldap.Values := ["foo"] |}
                ltac:(right; left) eq_refl) as (Hrdn & _ & Horigin & _).
  pose proof (@rdn_exclusion exampleRuntime "cn=foo,dc=x" ["objectClass"] []
                (ldap.Attributes withClasses)
                {| ldap.Name := "mail"; ldap.Values := ["a@x"] |}
                ltac:(right; right; left) eq_refl) as (_ & Hin & _).
  split; [apply Hrdn; exists "foo"; split; reflexivity|]. split.
  - intros x Hx Hname. destruct (Horigin x Hx) as (a & v & Ha & _ & Hnot & Hv & ->).
    clear Hx Hv.
    apply elem_of_cons in Ha as [->|Ha]; [discriminate Hname|].
    apply elem_of_cons in Ha as [->|Ha]; [discriminate Hnot|].
    apply elem_of_cons in Ha as [->|Ha]; [discriminate Hname|].
    by apply elem_of_nil in Ha.
  - destruct (Hin eq_refl "a@x" ltac:(left)) as (x & y & Hx & _ & _ & _ & Hfree).
    destruct (Hfree withClasses_mail_code) as [Heq _].
    cbn [ldap.Name] in Hx, Heq. rewrite Heq in Hx. exact Hx.
Defined.

(** * Further properties of the code *)

Section full_diff.
Context `{!GoRuntime}.
Implicit Types os ns S : AttributeSet.

Lemma elem_of_removedNames os ns k : k ∈ removedNames os ns ↔ lostIn os ns k.
Proof.
  unfold removedNames, lostIn. rewrite elem_of_namesOf. split.
  - intros [v [code Hc]%elem_of_List]. apply lookup_Difference in Hc. by exists code, v.
  - intros [code [v Hc]]. exists v. apply elem_of_List. exists code.
    by apply lookup_Difference.
Qed.

Lemma elem_of_addedNames os ns k : k ∈ addedNames os ns ↔ lostIn ns os k.
Proof. apply (elem_of_removedNames ns os). Qed.

Lemma elem_of_keptNames os ns k : k ∈ keptNames os ns ↔ keptIn os ns k.
Proof.
  unfold keptNames, keptIn. rewrite elem_of_namesOf. split.
  - intros [v [code Hc]%elem_of_List]. apply lookup_Intersection in Hc. by exists code, v.
  - intros [code [v Hc]]. exists v. apply elem_of_List. exists code.
    by apply lookup_Intersection.
Qed.

Lemma isGone_true os ns k :
  isGone os ns k = true ↔ ¬ lostIn ns os k ∧ ¬ keptIn os ns k.
Proof.
  unfold isGone, util.Contains. rewrite andb_true_iff, !negb_true_iff, !bool_decide_eq_false.
  by rewrite elem_of_addedNames, elem_of_keptNames.
Qed.

Lemma isNew_true os ns k :
  isNew os ns k = true ↔ ¬ lostIn os ns k ∧ ¬ keptIn os ns k.
Proof.
  unfold isNew, util.Contains. rewrite andb_true_iff, !negb_true_iff, !bool_decide_eq_false.
  by rewrite elem_of_removedNames, elem_of_keptNames.
Qed.

Lemma elem_of_changedNames os ns skip sel k :
  k ∈ changedNames os ns skip sel
  ↔ tracked skip sel k
    ∧ ((lostIn os ns k ∧ (lostIn ns os k ∨ keptIn os ns k))
       ∨ (lostIn ns os k ∧ (lostIn os ns k ∨ keptIn os ns k))).
Proof.
  unfold changedNames, util.NewSet.
  rewrite !elem_of_union, !elem_of_list_to_set, !list_elem_of_filter, !elem_of_util_List.
  rewrite elem_of_removedNames, elem_of_addedNames, elem_of_empty.
  assert (isGone os ns k = false ↔ (lostIn ns os k ∨ keptIn os ns k)) as ->.
  { rewrite <- not_true_iff_false, isGone_true.
    unfold util.Contains. split; [|tauto].
    intros Hn. destruct (decide (k ∈ addedNames os ns)) as [Ha|Ha];
      [left; by apply elem_of_addedNames|].
    destruct (decide (k ∈ keptNames os ns)) as [Hk|Hk];
      [right; by apply elem_of_keptNames|].
    rewrite elem_of_addedNames in Ha. rewrite elem_of_keptNames in Hk. tauto. }
  assert (isNew os ns k = false ↔ (lostIn os ns k ∨ keptIn os ns k)) as ->.
  { rewrite <- not_true_iff_false, isNew_true. split; [|tauto].
    intros Hn. destruct (decide (k ∈ removedNames os ns)) as [Ha|Ha];
      [left; by apply elem_of_removedNames|].
    destruct (decide (k ∈ keptNames os ns)) as [Hk|Hk];
      [right; by apply elem_of_keptNames|].
    rewrite elem_of_removedNames in Ha. rewrite elem_of_keptNames in Hk. tauto. }
  tauto.
Qed.

Lemma valuesOf_valuesUnder k S :
  valuesOf k (schema.List S) = toAttributeValue k <$> valuesUnder k S.
Proof. apply valuesOf_eq. Qed.

(** X3.  The directives of the full-ownership diff, on a fresh modify
    request, one by one.  A directive is in the request exactly when it is,
    for a name [k] that the filter lets through: the Delete of [k] without a
    value list, [k] having lost a value, gained none and kept none; or the
    Add of [k] with all the values of [k] in the new set, [k] having gained
    a value, lost none and kept none; or the Replace of [k] with all the
    values of [k] in the new set, [k] having lost or gained a value and also
    gained, lost or kept one. *)
Theorem deltas_classified os ns attributesToSkip attributesToSet dn c :
  c ∈ ldap.Changes (computeAndAddDeltas (ldap.NewModifyRequest dn) os ns
                      attributesToSkip attributesToSet)
  ↔ ∃ k, shouldSkipAttribute attributesToSkip attributesToSet k = false
         ∧ ((lostIn os ns k ∧ ¬ lostIn ns os k ∧ ¬ keptIn os ns k
             ∧ c = DeleteChange k [])
            ∨ (lostIn ns os k ∧ ¬ lostIn os ns k ∧ ¬ keptIn os ns k
               ∧ c = AddChange k (toAttributeValue k <$> valuesUnder k ns))
            ∨ (((lostIn os ns k ∧ (lostIn ns os k ∨ keptIn os ns k))
                ∨ (lostIn ns os k ∧ (lostIn os ns k ∨ keptIn os ns k)))
               ∧ c = ReplaceChange k (toAttributeValue k <$> valuesUnder k ns))).
Proof.
  rewrite computeAndAddDeltas_spec.
  cbn [ldap.Changes appendChanges ldap.NewModifyRequest app]. unfold deltas.
  rewrite !elem_of_app, !list_elem_of_fmap. unfold tracked. split.
  - intros [[k [-> Hk]]|[[k [-> Hk]]|[k [-> Hk]]]];
      apply list_elem_of_filter in Hk as [Hk Hin]; apply elem_of_util_List in Hin;
      exists k.
    + destruct Hk as [Ht [Ha Hkept]%isGone_true]. apply elem_of_removedNames in Hin.
      split; [done|]. left. tauto.
    + destruct Hk as [Ht [Hr Hkept]%isNew_true]. apply elem_of_addedNames in Hin.
      split; [done|]. right; left. rewrite valuesOf_valuesUnder. tauto.
    + apply elem_of_changedNames in Hin as [_ Hc].
      split; [done|]. right; right. rewrite valuesOf_valuesUnder. tauto.
  - intros [k [Ht [[Hr [Ha [Hk ->]]]|[[Ha [Hr [Hk ->]]]|[Hc ->]]]]].
    + left. exists k. split; [done|]. apply list_elem_of_filter. split.
      * split; [done|]. by apply isGone_true.
      * by apply elem_of_util_List, elem_of_removedNames.
    + right; left. exists k. split; [by rewrite valuesOf_valuesUnder|].
      apply list_elem_of_filter. split.
      * split; [done|]. by apply isNew_true.
      * by apply elem_of_util_List, elem_of_addedNames.
    + right; right. exists k. split; [by rewrite valuesOf_valuesUnder|].
      apply list_elem_of_filter. split; [done|].
      by apply elem_of_util_List, elem_of_changedNames.
Qed.
End full_diff.

Section full_diff_more.
Context `{!GoRuntime}.
Implicit Types os ns S : AttributeSet.

Lemma nameOf_changes (f : string → ldap.Change) (l : list string) :
  (∀ k, nameOf (f k) = k) → nameOf <$> (f <$> l) = l.
Proof.
  intros Hf. rewrite <- list_fmap_compose. rewrite <- (list_fmap_id l) at 2.
  apply list_fmap_ext. intros _ k _. apply Hf.
Qed.

(** X4.  The request of the full-ownership diff holds its Deletes first,
    then its Adds, then its Replaces, and no two of its directives name the
    same attribute. *)
Theorem deltas_ordered_once os ns attributesToSkip attributesToSet dn :
  ∃ deletes adds replaces,
    ldap.Changes (computeAndAddDeltas (ldap.NewModifyRequest dn) os ns
                    attributesToSkip attributesToSet)
    = deletes ++ adds ++ replaces
    ∧ Forall (λ c, ldap.Operation_ c = ldap.DeleteAttribute) deletes
    ∧ Forall (λ c, ldap.Operation_ c = ldap.AddAttribute) adds
    ∧ Forall (λ c, ldap.Operation_ c = ldap.ReplaceAttribute) replaces
    ∧ NoDup (nameOf <$> deletes ++ adds ++ replaces).
Proof.
  rewrite computeAndAddDeltas_spec.
  cbn [ldap.Changes appendChanges ldap.NewModifyRequest app]. unfold deltas.
  eexists _, _, _. split; [reflexivity|].
  split; [by apply Forall_fmap, Forall_true|].
  split; [by apply Forall_fmap, Forall_true|].
  split; [by apply Forall_fmap, Forall_true|].
  rewrite !fmap_app, !nameOf_changes by done.
  apply NoDup_app. split; [apply NoDup_filter, NoDup_util_List|]. split.
  - intros k [[_ Hg] Hr]%list_elem_of_filter Hin.
    apply isGone_true in Hg as [Hna Hnk]. apply elem_of_util_List in Hr.
    apply elem_of_app in Hin as [Hin|Hin]; apply list_elem_of_filter in Hin as [Hp Hin];
      apply elem_of_util_List in Hin.
    + apply elem_of_addedNames in Hin. tauto.
    + apply elem_of_changedNames in Hin. apply elem_of_removedNames in Hr. tauto.
  - apply NoDup_app. split; [apply NoDup_filter, NoDup_util_List|]. split.
    + intros k [[_ Hn] Ha]%list_elem_of_filter [_ Hin]%list_elem_of_filter.
      apply isNew_true in Hn as [Hnr Hnk]. apply elem_of_util_List in Ha, Hin.
      apply elem_of_changedNames in Hin. apply elem_of_addedNames in Ha. tauto.
    + apply NoDup_filter, NoDup_util_List.
Qed.

(** X5.  The full-ownership diff has a directive for a name exactly when
    the filter lets the name through and the name lost or gained a value (an
    item of one set whose hash code the other set does not hold): an
    attribute whose values did not change is never touched, whatever else
    changed. *)
Theorem deltas_touch os ns attributesToSkip attributesToSet dn k :
  (∃ c, c ∈ ldap.Changes (computeAndAddDeltas (ldap.NewModifyRequest dn) os ns
                            attributesToSkip attributesToSet)
        ∧ nameOf c = k)
  ↔ shouldSkipAttribute attributesToSkip attributesToSet k = false
    ∧ (lostIn os ns k ∨ lostIn ns os k).
Proof.
  assert ((∃ c, c ∈ ldap.Changes (computeAndAddDeltas (ldap.NewModifyRequest dn) os ns
                                    attributesToSkip attributesToSet)
                ∧ nameOf c = k)
          ↔ k ∈ nameOf <$> ldap.Changes (computeAndAddDeltas (ldap.NewModifyRequest dn)
                                           os ns attributesToSkip attributesToSet)) as ->.
  { rewrite list_elem_of_fmap. split; intros [c [? ?]]; by exists c. }
  rewrite computeAndAddDeltas_spec.
  cbn [ldap.Changes appendChanges ldap.NewModifyRequest app]. unfold deltas.
  rewrite !fmap_app, !nameOf_changes by done.
  rewrite !elem_of_app, !list_elem_of_filter, !elem_of_util_List.
  rewrite elem_of_changedNames, elem_of_removedNames, elem_of_addedNames.
  rewrite isGone_true, isNew_true. unfold tracked.
  destruct (decide (k ∈ removedNames os ns)) as [Hr|Hr];
    destruct (decide (k ∈ addedNames os ns)) as [Ha|Ha];
    destruct (decide (k ∈ keptNames os ns)) as [Hkept|Hkept];
    rewrite elem_of_removedNames in Hr; rewrite elem_of_addedNames in Ha;
    rewrite elem_of_keptNames in Hkept; tauto.
Qed.

Lemma deltas_to_empty S :
  deltas S ∅ [] [] = (λ k, DeleteChange k []) <$> util.List 0 (namesOf (schema.List S)).
Proof.
  unfold deltas, changedNames, isGone, isNew, removedNames, addedNames, keptNames.
  rewrite Difference_empty_l, Difference_empty_r, Intersection_empty_l.
  rewrite List_empty, namesOf_nil, util_List_empty, !filter_nil.
  rewrite (list_filter_all _ (util.List 0 _)) by (by apply Forall_true).
  rewrite (list_filter_none _ (util.List 0 _))
    by (apply Forall_true; intros k [_ Hk]; done).
  cbn [list_to_set foldr]. change (util.List 2 _) with (util.List 2 ∅).
  rewrite util_List_empty. cbn. by rewrite app_nil_r.
Qed.

(** X6.  From a set [S] to the empty set, with empty skip and select
    lists, the full-ownership diff appends Delete directives only, one for
    each distinct name of [S] and no other, each without a value list: the
    whole attribute is removed, not the values of [S] alone. *)
Theorem full_removal S dn :
  ∃ names,
    NoDup names
    ∧ (∀ k, k ∈ names ↔ ∃ v, (k, v) ∈ schema.List S)
    ∧ ldap.Changes (computeAndAddDeltas (ldap.NewModifyRequest dn) S ∅ [] [])
      = (λ k, DeleteChange k []) <$> names.
Proof.
  exists (util.List 0 (namesOf (schema.List S))). split; [apply NoDup_util_List|].
  split.
  - intros k. by rewrite elem_of_util_List, elem_of_namesOf.
  - by rewrite computeAndAddDeltas_spec, deltas_to_empty.
Qed.
End full_diff_more.

Section partial_diff.
Context `{!GoRuntime}.
Implicit Types os ns S : AttributeSet.

Lemma elem_of_valuesUnder k S v :
  v ∈ valuesUnder k S ↔ ∃ code, S !! code = Some (k, v).
Proof.
  unfold valuesUnder. rewrite list_elem_of_fmap. split.
  - intros [[k' v'] [-> [Hk Hin]%list_elem_of_filter]]. cbn in *. subst k'.
    by apply elem_of_List.
  - intros Hin%elem_of_List. exists (k, v). split; [done|].
    by apply list_elem_of_filter.
Qed.

Lemma util_List_Permutation site site' (set : gset string) :
  util.List site set ≡ₚ util.List site' set.
Proof. unfold util.List. by rewrite !range_order_perm. Qed.

(** X7.  The request of the partial-ownership diff, on a fresh modify
    request: its Deletes come first, then its Adds, with at most one of each
    for a name.  There is a Delete for exactly the names with an item that
    only the old set holds, and it carries the wire values of those items;
    an Add for exactly the names with an item that only the new set holds,
    with the wire values of those; and no directive has an empty value
    list. *)
Theorem partial_diff_exact os ns dn :
  ∃ deletes adds,
    ldap.Changes (computeAndAddAttributeDeltas (ldap.NewModifyRequest dn) os ns)
    = deletes ++ adds
    ∧ NoDup (nameOf <$> deletes) ∧ NoDup (nameOf <$> adds)
    ∧ (∀ c, c ∈ deletes
            ↔ ∃ k, lostIn os ns k
                   ∧ c = DeleteChange k
                           (toAttributeValue k <$> valuesUnder k (schema.Difference os ns)))
    ∧ (∀ c, c ∈ adds
            ↔ ∃ k, lostIn ns os k
                   ∧ c = AddChange k
                           (toAttributeValue k <$> valuesUnder k (schema.Difference ns os)))
    ∧ (∀ k v, v ∈ valuesUnder k (schema.Difference os ns)
              ↔ ∃ code, os !! code = Some (k, v) ∧ ns !! code = None)
    ∧ Forall (λ c, ldap.Vals (ldap.Modification c) ≠ []) (deletes ++ adds).
Proof.
  rewrite computeAndAddAttributeDeltas_spec.
  cbn [ldap.Changes appendChanges ldap.NewModifyRequest app].
  eexists _, _. split; [reflexivity|].
  rewrite !nameOf_changes by done.
  split; [apply NoDup_util_List|]. split; [apply NoDup_util_List|].
  split; [|split; [|split]].
  - intros c. rewrite list_elem_of_fmap.
    setoid_rewrite elem_of_util_List. setoid_rewrite elem_of_removedNames.
    split; intros [k [? ?]]; exists k; by rewrite ?valuesOf_valuesUnder in *.
  - intros c. rewrite list_elem_of_fmap.
    setoid_rewrite elem_of_util_List. setoid_rewrite elem_of_addedNames.
    split; intros [k [? ?]]; exists k; by rewrite ?valuesOf_valuesUnder in *.
  - intros k v. rewrite elem_of_valuesUnder.
    by setoid_rewrite lookup_Difference.
  - apply Forall_app. split; apply Forall_fmap, Forall_forall; intros k Hk;
      apply elem_of_util_List in Hk; cbn; by apply valuesOf_nonempty.
Qed.

(** X8.  Swapping the old and the new set turns the request of the
    partial-ownership diff into its inverse: up to the order of the
    directives, each Delete becomes the Add of the same name and values, and
    each Add the Delete. *)
Theorem partial_diff_reverts os ns dn :
  ldap.Changes (computeAndAddAttributeDeltas (ldap.NewModifyRequest dn) ns os)
  ≡ₚ invertChange <$>
       ldap.Changes (computeAndAddAttributeDeltas (ldap.NewModifyRequest dn) os ns).
Proof.
  rewrite !computeAndAddAttributeDeltas_spec.
  cbn [ldap.Changes appendChanges ldap.NewModifyRequest app].
  rewrite fmap_app, <- !list_fmap_compose.
  rewrite Permutation_app_comm. unfold removedNames, addedNames.
  apply Permutation_app.
  - rewrite (util_List_Permutation 4 3). done.
  - rewrite (util_List_Permutation 3 4). done.
Qed.
End partial_diff.

Section filter.
Context `{!GoRuntime}.

Lemma shouldSkipAttribute_eq skip sel k :
  shouldSkipAttribute skip sel k
  = stringSliceContains skip k
    || ((0 <? length sel)%nat && negb (stringSliceContains sel k)).
Proof.
  unfold shouldSkipAttribute.
  destruct ((0 <? length sel)%nat && _); [by rewrite orb_true_r|].
  rewrite orb_false_r. destruct skip; [done|]. cbn [length Nat.ltb Nat.leb andb].
  by destruct (stringSliceContains _ k).
Qed.

(** X1.  [stringSliceContains] decides membership: it returns true exactly
    when the needle is one of the strings of the haystack, for every
    haystack, the empty one included. *)
Theorem stringSliceContains_decides (haystack : list string) (needle : string) :
  stringSliceContains haystack needle = bool_decide (needle ∈ haystack).
Proof.
  induction haystack as [|h haystack IH]; cbn; [done|].
  destruct (decide (needle = h)) as [->|Hne].
  - by rewrite bool_decide_eq_true_2 by left.
  - rewrite IH. apply bool_decide_ext. rewrite elem_of_cons. naive_solver.
Qed.

(** X2.  The filter of the full-ownership diff: a name is skipped exactly
    when it is on the list to skip, or the list to set is not empty and does
    not hold it.  With both lists empty no name is skipped. *)
Theorem shouldSkipAttribute_iff (attributesToSkip attributesToSet : list string) k :
  shouldSkipAttribute attributesToSkip attributesToSet k = true
  ↔ k ∈ attributesToSkip ∨ (attributesToSet ≠ [] ∧ k ∉ attributesToSet).
Proof.
  rewrite shouldSkipAttribute_eq, orb_true_iff, andb_true_iff, negb_true_iff.
  rewrite stringSliceContains_true, stringSliceContains_false.
  assert ((0 <? length attributesToSet)%nat = true ↔ attributesToSet ≠ []) as ->
    by (by destruct attributesToSet).
  done.
Qed.

(** A loop that accumulates, under each name that [keep] selects, the wire
    values of the items of that name. *)
Lemma foldl_accumulate (f : gmap string (list string) → Item → gmap string (list string))
    (keep : string → bool) (l : list Item) (m : gmap string (list string)) k :
  (∀ m name value, f m (name, value) =
     if keep name
     then <[name := default [] (m !! name) ++ [toAttributeValue name value]]> m
     else m) →
  foldl f m l !! k
  = if keep k
    then match valuesOf k l with
         | [] => m !! k
         | vs => Some (default [] (m !! k) ++ vs)
         end
    else m !! k.
Proof.
  intros Hf. revert m. induction l as [|[name value] l IH]; intros m.
  - cbn. by destruct (keep k).
  - cbn [foldl]. rewrite IH, Hf. rewrite !valuesOf_eq, filter_cons. cbn [fst].
    destruct (keep k) eqn:Hk.
    + destruct (decide (k = name)) as [<-|Hne].
      * rewrite Hk, lookup_insert_eq. cbn.
        destruct (toAttributeValue k <$> _) eqn:Hvs; cbn; [done|].
        by rewrite <- app_assoc.
      * destruct (keep name); [|done]. by rewrite lookup_insert_ne.
    + destruct (keep name) eqn:Hn; [|done].
      rewrite lookup_insert_ne; [done|]. intros ->. congruence.
Qed.

Lemma createAttributes_lookup skip sel (l : list Item) k :
  createAttributes skip sel l !! k
  = if shouldSkipAttribute skip sel k then None
    else match valuesOf k l with [] => None | vs => Some vs end.
Proof.
  unfold createAttributes.
  rewrite (foldl_accumulate _ (λ name, negb (shouldSkipAttribute skip sel name))).
  - rewrite lookup_empty. destruct (shouldSkipAttribute skip sel k); cbn; [done|].
    by destruct (valuesOf k l).
  - intros m name value. rewrite shouldSkipAttribute_eq.
    destruct (stringSliceContains skip name); [done|]. cbn.
    by destruct (_ && _).
Qed.

Lemma attributes_createAttributes_lookup (l : list Item) k :
  ObjectAttributes.createAttributes l !! k
  = match valuesOf k l with [] => None | vs => Some vs end.
Proof.
  unfold ObjectAttributes.createAttributes.
  rewrite (foldl_accumulate _ (λ _, true)); [|done].
  rewrite lookup_empty. by destruct (valuesOf k l).
Qed.

Lemma valuesOf_nil_iff k (l : list Item) : valuesOf k l = [] ↔ ¬ ∃ v, (k, v) ∈ l.
Proof.
  split.
  - intros Hnil Hex. apply elem_of_namesOf in Hex. by apply valuesOf_nonempty in Hex.
  - intros Hn. rewrite valuesOf_eq.
    rewrite (list_filter_none _ l); [done|].
    apply Forall_forall. intros [k' v] Hin Heq. cbn in Heq. subst k'.
    apply Hn. by exists v.
Qed.
End filter.

Section attributes_ops.
Context `{!GoRuntime} (meta : ldap.Conn).

Lemma Equal_true (o n : AttributeSet) : schema.Equal o n = true ↔ o = n.
Proof. unfold schema.Equal. apply bool_decide_eq_true. Qed.

Lemma nonempty_length {A} (l : list A) : (0 <? length l)%nat = false ↔ l = [].
Proof. by destruct l. Qed.

Lemma partial_deltas_same (S : AttributeSet) modify :
  computeAndAddAttributeDeltas modify S S = modify.
Proof.
  rewrite computeAndAddAttributeDeltas_spec. unfold removedNames, addedNames.
  rewrite !Difference_self, List_empty, namesOf_nil, !util_List_empty.
  apply appendChanges_nil.
Qed.

(** X13.  The update of [ldap_object_attributes]: the modify request is
    the partial-ownership diff of the prior and the planned set, addressed
    to the DN.  Without a change nothing is sent and the owned values are
    read back; with a change the request is sent, a failure is returned as
    it is, without a read, and a success is followed by the read. *)
Theorem attributesUpdate_composes (st : State) :
  let modify :=
    computeAndAddAttributeDeltas (ldap.NewModifyRequest (dn (d st)))
      (prior (attributes (d st))) (planned (attributes (d st))) in
  ObjectAttributes.resourceLDAPObjectAttributesUpdate meta st
  = match ldap.Changes modify with
    | [] => ObjectAttributes.resourceLDAPObjectAttributesRead meta st
    | _ :: _ =>
      match ldap.Modify meta (sent st) modify with
      | Some err => Returned (Some err) (afterSending (ldap.ModifyOf modify) st)
      | None =>
        ObjectAttributes.resourceLDAPObjectAttributesRead meta
          (afterSending (ldap.ModifyOf modify) st)
      end
    end.
Proof.
  cbv zeta. unfold ObjectAttributes.resourceLDAPObjectAttributesUpdate. run.
  destruct (schema.Equal _ _) eqn:Heq; cbn [negb]; run.
  - apply Equal_true in Heq. rewrite Heq.
    rewrite partial_deltas_same.
    cbn. destruct st as [dd ss]. reflexivity.
  - destruct (ldap.Changes _) eqn:Hc; cbn [length Nat.ltb Nat.leb]; run.
    + destruct st as [dd ss]. reflexivity.
    + unfold afterSending. by destruct (ldap.Modify meta _ _).
Qed.

(** The changes of the request that the creation of the partial-ownership
    resource builds. *)
Lemma attributesCreate_request dn (S : AttributeSet) :
  let m := ObjectAttributes.createAttributes (schema.List S) in
  (if (0 <? length (schema.List S))%nat
   then foldl (λ request name, ldap.Add request name (default [] (m !! name)))
              (ldap.NewModifyRequest dn) (range_order 6 (fst <$> map_to_list m))
   else ldap.NewModifyRequest dn)
  = {| ldap.DN := dn;
       ldap.Changes := (λ k, AddChange k (toAttributeValue k <$> valuesUnder k S)) <$>
                         range_order 6 (fst <$> map_to_list m) |}
  ∧ range_order 6 (fst <$> map_to_list m) ≡ₚ util.List 4 (namesOf (schema.List S)).
Proof.
  cbv zeta. set (m := ObjectAttributes.createAttributes (schema.List S)).
  assert (∀ k, k ∈ (fst <$> map_to_list m) ↔ k ∈ namesOf (schema.List S)) as Hkeys.
  { intros k. rewrite list_elem_of_fmap. split.
    - intros [[k' vs] [-> Hin%elem_of_map_to_list]]. subst m. cbn.
      rewrite attributes_createAttributes_lookup in Hin.
      destruct (valuesOf k' (schema.List S)) eqn:Hvs; [done|].
      destruct (decide (k' ∈ namesOf (schema.List S))) as [|Hn]; [done|].
      rewrite elem_of_namesOf in Hn. apply valuesOf_nil_iff in Hn. congruence.
    - intros Hk. pose proof (valuesOf_nonempty _ _ Hk) as Hne.
      exists (k, valuesOf k (schema.List S)). split; [done|].
      apply elem_of_map_to_list. subst m. rewrite attributes_createAttributes_lookup.
      by destruct (valuesOf k (schema.List S)). }
  split.
  - destruct (0 <? length (schema.List S))%nat eqn:Hlen.
    + unfold ldap.Add.
      rewrite (foldl_appendChange ldap.AddAttribute (λ name, default [] (m !! name))).
      unfold appendChanges. cbn [ldap.DN ldap.Changes ldap.NewModifyRequest app].
      f_equal. apply list_fmap_ext. intros i k Hk. f_equal.
      apply list_elem_of_lookup_2 in Hk. rewrite range_order_perm in Hk.
      apply Hkeys in Hk. unfold m. rewrite attributes_createAttributes_lookup.
      pose proof (valuesOf_nonempty _ _ Hk) as Hne. rewrite <- valuesOf_valuesUnder.
      by destruct (valuesOf k (schema.List S)).
    + apply nonempty_length in Hlen. unfold m. rewrite Hlen.
      change (map_to_list (ObjectAttributes.createAttributes []))
        with (@nil (string * list string)).
      cbn. by rewrite range_order_nil.
  - rewrite range_order_perm. unfold util.List. rewrite range_order_perm.
    apply NoDup_Permutation; [apply NoDup_fst_map_to_list|apply NoDup_elements|].
    intros k. by rewrite Hkeys, elem_of_elements.
Qed.

Lemma attributesCreate_runs (st : State) :
  let S := Field_Get (attributes (d st)) in
  ∃ names,
    names ≡ₚ util.List 4 (namesOf (schema.List S))
    ∧ let request :=
        {| ldap.DN := dn (d st);
           ldap.Changes :=
             (λ k, AddChange k (toAttributeValue k <$> valuesUnder k S)) <$> names |} in
      ObjectAttributes.resourceLDAPObjectAttributesCreate meta st
      = match ldap.Modify meta (sent st) request with
        | Some err => Returned (Some err) (afterSending (ldap.ModifyOf request) st)
        | None =>
          ObjectAttributes.resourceLDAPObjectAttributesRead meta
            (afterSending (ldap.ModifyOf request) st)
        end.
Proof.
  cbv zeta.
  destruct (attributesCreate_request (dn (d st)) (Field_Get (attributes (d st))))
    as [Hreq Hnames].
  eexists. split; [exact Hnames|].
  unfold ObjectAttributes.resourceLDAPObjectAttributesCreate. run.
  unfold Field_Get in Hreq. rewrite Hreq. unfold afterSending.
  by destruct (ldap.Modify meta _ _).
Qed.

Lemma attributesDelete_runs (st : State) :
  let modify :=
    computeAndAddAttributeDeltas (ldap.NewModifyRequest (dn (d st)))
      (Field_Get (attributes (d st))) ∅ in
  ObjectAttributes.resourceLDAPObjectAttributesDelete meta st
  = match ldap.Changes modify with
    | [] => Returned None st
    | _ :: _ =>
      Returned (ldap.Modify meta (sent st) modify)
               (afterSending (ldap.ModifyOf modify) st)
    end.
Proof.
  cbv zeta. unfold ObjectAttributes.resourceLDAPObjectAttributesDelete. run.
  destruct (ldap.Changes _) eqn:Hc; cbn [length Nat.ltb Nat.leb]; run.
  - by destruct st.
  - unfold afterSending. by destruct (ldap.Modify meta _ _).
Qed.

Lemma partial_deltas_from_empty dn (S : AttributeSet) :
  ldap.Changes (computeAndAddAttributeDeltas (ldap.NewModifyRequest dn) ∅ S)
  = (λ k, AddChange k (toAttributeValue k <$> valuesUnder k S)) <$>
      util.List 4 (namesOf (schema.List S)).
Proof.
  rewrite computeAndAddAttributeDeltas_spec. unfold removedNames, addedNames.
  rewrite Difference_empty_l, Difference_empty_r, List_empty, namesOf_nil, util_List_empty.
  cbn. apply list_fmap_ext. intros i k _. by rewrite valuesOf_valuesUnder.
Qed.

Lemma partial_deltas_to_empty dn (S : AttributeSet) :
  ldap.Changes (computeAndAddAttributeDeltas (ldap.NewModifyRequest dn) S ∅)
  = (λ k, DeleteChange k (toAttributeValue k <$> valuesUnder k S)) <$>
      util.List 3 (namesOf (schema.List S)).
Proof.
  rewrite computeAndAddAttributeDeltas_spec. unfold removedNames, addedNames.
  rewrite Difference_empty_l, Difference_empty_r, List_empty, namesOf_nil, util_List_empty.
  cbn. rewrite app_nil_r. apply list_fmap_ext. intros i k _.
  by rewrite valuesOf_valuesUnder.
Qed.

(** X12.  The creation of [ldap_object_attributes] sends one modify
    request to the DN whose changes are, up to their order, those of the
    partial-ownership diff from the empty set to the planned set: an Add per
    name, with its values.  The request is sent even if it holds no change.
    A failure is returned as it is, without a read; a success is followed by
    the read of the owned values. *)
Theorem attributesCreate_adds_owned (st : State) :
  let S := Field_Get (attributes (d st)) in
  ∃ request,
    ldap.DN request = dn (d st)
    ∧ ldap.Changes request
      ≡ₚ ldap.Changes (computeAndAddAttributeDeltas
                         (ldap.NewModifyRequest (dn (d st))) ∅ S)
    ∧ ObjectAttributes.resourceLDAPObjectAttributesCreate meta st
      = match ldap.Modify meta (sent st) request with
        | Some err => Returned (Some err) (afterSending (ldap.ModifyOf request) st)
        | None =>
          ObjectAttributes.resourceLDAPObjectAttributesRead meta
            (afterSending (ldap.ModifyOf request) st)
        end.
Proof.
  cbv zeta. destruct (attributesCreate_runs st) as [names [Hnames Hrun]].
  eexists. split; [|split; [|exact Hrun]]; [done|].
  cbn. rewrite partial_deltas_from_empty. by rewrite Hnames.
Qed.

(** X14.  The deletion of [ldap_object_attributes] sends the
    partial-ownership diff from the stored set to the empty set, and returns
    what the directory answers; the resource data stay as they are.  The
    changes are the inverse of those that a creation with the same set
    sends, up to their order; and nothing is sent exactly when the stored
    set is empty. *)
Theorem attributesDelete_undoes_create (st : State) :
  let S := Field_Get (attributes (d st)) in
  let remove :=
    computeAndAddAttributeDeltas (ldap.NewModifyRequest (dn (d st))) S ∅ in
  let add :=
    computeAndAddAttributeDeltas (ldap.NewModifyRequest (dn (d st))) ∅ S in
  ObjectAttributes.resourceLDAPObjectAttributesDelete meta st
  = match ldap.Changes remove with
    | [] => Returned None st
    | _ :: _ =>
      Returned (ldap.Modify meta (sent st) remove)
               (afterSending (ldap.ModifyOf remove) st)
    end
  ∧ ldap.Changes remove ≡ₚ invertChange <$> ldap.Changes add
  ∧ (ldap.Changes remove = [] ↔ S = ∅).
Proof.
  cbv zeta. split; [apply attributesDelete_runs|]. split.
  - rewrite partial_deltas_to_empty, partial_deltas_from_empty, <- list_fmap_compose.
    by rewrite (util_List_Permutation 3 4).
  - rewrite partial_deltas_to_empty. split.
    + intros Hnil%fmap_nil_inv. apply map_eq. intros code. rewrite lookup_empty.
      destruct (Field_Get (attributes (d st)) !! code) as [[k v]|] eqn:Hc; [|done].
      assert (k ∈ util.List 3 (namesOf (schema.List (Field_Get (attributes (d st))))))
        as Hk.
      { apply elem_of_util_List, elem_of_namesOf. exists v. apply elem_of_List.
        by exists code. }
      rewrite Hnil in Hk. by apply elem_of_nil in Hk.
    + intros ->. by rewrite List_empty, namesOf_nil, util_List_empty.
Qed.
End attributes_ops.

Section reads.
Context `{!GoRuntime} (meta : ldap.Conn).

(** X15.  The read of [ldap_object_attributes] writes the attributes only
    when the search found the entry, and then the set it writes is not
    empty, the id is the DN, and every item written is an item of the prior
    or of the planned set, kept under a hash code that a value of the entry
    (the RDN left out) has.  The item is that value of the entry itself when
    it is kept under its own hash code, as the SDK keeps it, and no other
    value of the entry has the same hash code.  (Two pairs can have the same
    CRC-32, as those of [collidingValues]: then an owned value that has left
    the entry stays in the state for as long as the other one is there.) *)
Theorem attributesRead_stores_owned_live (st : State) (set : AttributeSet) :
  written (attributes (d (final (ObjectAttributes.resourceLDAPObjectAttributesRead meta st))))
  = Some set →
  written (attributes (d st)) = Some set
  ∨ (set ≠ ∅
     ∧ Id (d (final (ObjectAttributes.resourceLDAPObjectAttributesRead meta st)))
       = dn (d st)
     ∧ ∃ sr entry rest,
         ldap.Search meta (sent st) (readRequest (dn (d st))) = inl sr
         ∧ ldap.Entries sr = entry :: rest
         ∧ ∀ code x, set !! code = Some x →
             (prior (attributes (d st)) !! code = Some x
              ∨ planned (attributes (d st)) !! code = Some x
              ∨ Field_Get (attributes (d st)) !! code = Some x)
             ∧ ∃ a v,
                 a ∈ ldap.Attributes entry
                 ∧ isRDN (dn (d st)) a = false
                 ∧ v ∈ ldap.Values a
                 ∧ schema.hash attributeHash (ldap.Name a, v) = code
                 ∧ (schema.hash attributeHash x = code →
                    (∀ a' v', a' ∈ ldap.Attributes entry → v' ∈ ldap.Values a' →
                       schema.hash attributeHash (ldap.Name a', v')
                       = schema.hash attributeHash x →
                       (ldap.Name a', v') = x) →
                    x = (ldap.Name a, v))).
Proof.
  assert (∀ entry code x,
            is_Some (ObjectAttributes.ldapSetOf (dn (d st)) (ldap.Attributes entry) !! code) →
            ∃ a v,
              a ∈ ldap.Attributes entry
              ∧ isRDN (dn (d st)) a = false
              ∧ v ∈ ldap.Values a
              ∧ schema.hash attributeHash (ldap.Name a, v) = code
              ∧ (schema.hash attributeHash x = code →
                 (∀ a' v', a' ∈ ldap.Attributes entry → v' ∈ ldap.Values a' →
                    schema.hash attributeHash (ldap.Name a', v')
                    = schema.hash attributeHash x →
                    (ldap.Name a', v') = x) →
                 x = (ldap.Name a, v))) as Hlive.
  { intros entry code x [y Hy].
    pose proof (ldapSetOf_keyed _ _ _ _ Hy) as Hcode.
    apply ldapSetOf_Some in Hy as [a [v [Ha [Hk [Hv ->]]]]].
    apply negb_true_iff in Hk. exists a, v.
    split; [done|]. split; [done|]. split; [done|]. split; [done|].
    intros Hx Hfree. symmetry. apply Hfree; [done|done|]. by rewrite Hx. }
  unfold ObjectAttributes.resourceLDAPObjectAttributesRead. run.
  fold (readRequest (dn (d st))).
  destruct (ldap.Search meta _ _) as [sr|err] eqn:Hsearch; run.
  - destruct (ldap.Entries sr) as [|entry rest] eqn:Hentries; run; [by left|].
    destruct (schema.Equal _ _); cbn [negb]; run;
      destruct (schema.Len _ =? 0)%nat eqn:Hlen; run; try (by left);
      intros [= <-]; right;
      (split; [intros Hempty; rewrite Hempty in Hlen; done|]);
      (split; [done|]); exists sr, entry, rest; (split; [done|]); (split; [done|]);
      intros code x [Hx Hl]%lookup_Intersection; (split; [|by apply Hlive]).
    + unfold Field_Get. tauto.
    + unfold schema.Union in Hx. apply lookup_union_Some_raw in Hx as [Hx|[_ Hx]]; tauto.
  - destruct (noSuchObject err); run; by left.
Qed.

(** X16.  A search that succeeds with no entry at all (no error, an empty
    result) makes every read function panic on [sr.Entries[0]]: that of
    [ldap_object] after it has set the id to the DN, those of both copies of
    [ldap_object_attributes] with the resource data untouched. *)
Theorem reads_panic_without_entry (st : State) (updateState : bool) sr :
  ldap.Search meta (sent st) (readRequest (dn (d st))) = inl sr →
  ldap.Entries sr = [] →
  readLDAPObject meta updateState st
  = Panicked {| d := with_Id (dn (d st)) (d st);
                sent := sent st ++ [ldap.SearchOf (readRequest (dn (d st)))] |}
  ∧ ObjectAttributes.resourceLDAPObjectAttributesRead meta st
    = Panicked (afterSending (ldap.SearchOf (readRequest (dn (d st)))) st)
  ∧ ObjectAttributesFull.resourceLDAPObjectAttributesRead meta st
    = Panicked (afterSending (ldap.SearchOf (readRequest (dn (d st)))) st).
Proof.
  intros Hsearch Hentries. unfold readRequest in Hsearch. repeat split.
  - unfold readLDAPObject. run. rewrite Hsearch. run. by rewrite Hentries.
  - unfold ObjectAttributes.resourceLDAPObjectAttributesRead. run.
    rewrite Hsearch. run. by rewrite Hentries.
  - unfold ObjectAttributesFull.resourceLDAPObjectAttributesRead. run.
    rewrite Hsearch. run. by rewrite Hentries.
Qed.
End reads.

Lemma reads_panic_without_entry_witness :
  @readLDAPObject exampleRuntime emptyResultDirectory true
    (start (attributesData "cn=foo,dc=x" ∅ ∅))
  = Panicked {| d := with_Id "cn=foo,dc=x" (attributesData "cn=foo,dc=x" ∅ ∅);
                sent := [ldap.SearchOf (readRequest "cn=foo,dc=x")] |}.
Proof.
  apply (@reads_panic_without_entry exampleRuntime emptyResultDirectory
           (start (attributesData "cn=foo,dc=x" ∅ ∅)) true {| ldap.Entries := [] |});
    reflexivity.
Defined.

Section object_ops.
Context `{!GoRuntime} (meta : ldap.Conn).

Lemma full_deltas_same (S : AttributeSet) modify skip sel :
  computeAndAddDeltas modify S S skip sel = modify.
Proof. by rewrite computeAndAddDeltas_spec, deltas_same, appendChanges_nil. Qed.

(** X11.  The update of [ldap_object], with its three set keys present:
    the modify request is addressed to the id; it holds the Replace of
    [objectClass] with the planned classes, if the classes changed, and then
    the directives of the full-ownership diff of the prior and the planned
    attributes, filtered.  Without a change nothing is sent and the entry is
    read; with a change the request is sent, a failure is returned as it is,
    without a read, and a success is followed by the read. *)
Theorem objectUpdate_composes (st : State) skip sel f :
  skip_attributes (d st) = Some skip →
  select_attributes (d st) = Some sel →
  object_classes (d st) = Some f →
  let classes :=
    if schema.Equal (prior f) (planned f) then ldap.NewModifyRequest (Id (d st))
    else ldap.Replace (ldap.NewModifyRequest (Id (d st))) "objectClass"
           (schema.List (Field_Get f)) in
  let modify :=
    computeAndAddDeltas classes (prior (attributes (d st))) (planned (attributes (d st)))
      ("objectClass" :: schema.List skip) (schema.List sel) in
  resourceLDAPObjectUpdate meta st
  = match ldap.Changes modify with
    | [] => resourceLDAPObjectRead meta st
    | _ :: _ =>
      match ldap.Modify meta (sent st) modify with
      | Some err => Returned (Some err) (afterSending (ldap.ModifyOf modify) st)
      | None => resourceLDAPObjectRead meta (afterSending (ldap.ModifyOf modify) st)
      end
    end.
Proof.
  intros Hskip Hsel Hoc. cbv zeta. unfold resourceLDAPObjectUpdate. run.
  rewrite Hskip, Hsel, Hoc. run.
  assert (∀ (m0 : ldap.ModifyRequest) (st0 : State), st0 = st →
    match
      (if negb (schema.Equal (prior (attributes (d st0))) (planned (attributes (d st0))))
       then λ st1 : State,
              Returned
                (computeAndAddDeltas m0 (prior (attributes (d st1)))
                   (planned (attributes (d st1)))
                   (["objectClass"] ++ schema.List skip) (schema.List sel)) st1
       else λ st1 : State, Returned m0 st1) st0
    with
    | Returned a0 st'0 =>
      (if (0 <? length (ldap.Changes a0))%nat
       then λ st1 : State,
              match ldap.Modify meta (sent st1) a0 with
              | Some err => λ st2 : State, Returned (Some err) st2
              | None => resourceLDAPObjectRead meta
              end {| d := d st1; sent := sent st1 ++ [ldap.ModifyOf a0] |}
       else resourceLDAPObjectRead meta) st'0
    | Panicked st'0 => Panicked st'0
    end
    = let modify :=
        computeAndAddDeltas m0 (prior (attributes (d st))) (planned (attributes (d st)))
          ("objectClass" :: schema.List skip) (schema.List sel) in
      match ldap.Changes modify with
      | [] => resourceLDAPObjectRead meta st
      | _ :: _ =>
        match ldap.Modify meta (sent st) modify with
        | Some err => Returned (Some err) (afterSending (ldap.ModifyOf modify) st)
        | None => resourceLDAPObjectRead meta (afterSending (ldap.ModifyOf modify) st)
        end
      end) as Hrest.
  { intros m0 st0 ->. cbv zeta.
    destruct (schema.Equal _ _) eqn:Heq; cbn [negb].
    - apply Equal_true in Heq. rewrite Heq, full_deltas_same.
      destruct (ldap.Changes m0); cbn [length Nat.ltb Nat.leb]; [done|].
      unfold afterSending. by destruct (ldap.Modify meta _ _).
    - cbn [app]. destruct (ldap.Changes _); cbn [length Nat.ltb Nat.leb]; [done|].
      unfold afterSending. by destruct (ldap.Modify meta _ _). }
  destruct (schema.Equal (prior f) (planned f)); cbn [negb]; run.
  - by apply Hrest.
  - rewrite Hoc. cbn [fmap option_fmap option_map]. run. by apply Hrest.
Qed.

Lemma foldl_Attribute_request (g : string → list string) l request :
  foldl (λ request name, ldap.Attribute_ request name (g name)) request l
  = {| ldap.AddRequest_DN := ldap.AddRequest_DN request;
       ldap.AddRequest_Attributes :=
         ldap.AddRequest_Attributes request
         ++ ((λ name, {| ldap.Attribute_Type := name; ldap.Attribute_Vals := g name |})
               <$> l) |}.
Proof.
  revert request. induction l as [|name l IH]; intros request; cbn.
  - rewrite app_nil_r. by destruct request.
  - rewrite IH. cbn. by rewrite <- app_assoc.
Qed.

Lemma objectCreate_request dn classes skip sel (S : AttributeSet) :
  let m := createAttributes skip sel (schema.List S) in
  let request0 := ldap.Attribute_ (ldap.NewAddRequest dn) "objectClass" classes in
  (if (0 <? length (schema.List S))%nat
   then foldl (λ request name, ldap.Attribute_ request name (default [] (m !! name)))
              request0 (range_order 5 (fst <$> map_to_list m))
   else request0)
  = {| ldap.AddRequest_DN := dn;
       ldap.AddRequest_Attributes :=
         {| ldap.Attribute_Type := "objectClass"; ldap.Attribute_Vals := classes |}
         :: ((λ k, {| ldap.Attribute_Type := k;
                      ldap.Attribute_Vals := toAttributeValue k <$> valuesUnder k S |})
               <$> range_order 5 (fst <$> map_to_list m)) |}
  ∧ NoDup (range_order 5 (fst <$> map_to_list m))
  ∧ ∀ k, k ∈ range_order 5 (fst <$> map_to_list m)
         ↔ shouldSkipAttribute skip sel k = false ∧ ∃ v, (k, v) ∈ schema.List S.
Proof.
  cbv zeta. set (m := createAttributes skip sel (schema.List S)).
  assert (∀ k, k ∈ (fst <$> map_to_list m)
               ↔ shouldSkipAttribute skip sel k = false ∧ ∃ v, (k, v) ∈ schema.List S)
    as Hkeys.
  { intros k. rewrite list_elem_of_fmap. split.
    - intros [[k' vs] [-> Hin%elem_of_map_to_list]]. unfold m in Hin. cbn.
      rewrite createAttributes_lookup in Hin.
      destruct (shouldSkipAttribute skip sel k'); [done|]. split; [done|].
      destruct (valuesOf k' (schema.List S)) eqn:Hvs; [done|].
      destruct (decide (k' ∈ namesOf (schema.List S))) as [Hy|Hn];
        [by apply elem_of_namesOf|].
      rewrite elem_of_namesOf in Hn. apply valuesOf_nil_iff in Hn. congruence.
    - intros [Ht Hk%elem_of_namesOf]. pose proof (valuesOf_nonempty _ _ Hk) as Hne.
      exists (k, valuesOf k (schema.List S)). split; [done|].
      apply elem_of_map_to_list. unfold m. rewrite createAttributes_lookup, Ht.
      by destruct (valuesOf k (schema.List S)). }
  split; [|split].
  - destruct (0 <? length (schema.List S))%nat eqn:Hlen.
    + rewrite foldl_Attribute_request. cbn. f_equal. f_equal.
      apply list_fmap_ext. intros i k Hk. f_equal.
      apply list_elem_of_lookup_2 in Hk. rewrite range_order_perm in Hk.
      apply Hkeys in Hk as [Ht Hk%elem_of_namesOf].
      unfold m. rewrite createAttributes_lookup, Ht.
      pose proof (valuesOf_nonempty _ _ Hk) as Hne. rewrite <- valuesOf_valuesUnder.
      by destruct (valuesOf k (schema.List S)).
    + apply nonempty_length in Hlen. unfold m. rewrite Hlen.
      change (map_to_list (createAttributes skip sel []))
        with (@nil (string * list string)).
      cbn. by rewrite range_order_nil.
  - rewrite range_order_perm. apply NoDup_fst_map_to_list.
  - intros k. by rewrite range_order_perm.
Qed.

(** X10.  The creation of [ldap_object], with its three set keys present:
    it sends one add request for the DN, which names [objectClass] first,
    with the planned classes, and then each name once that the filter lets
    through and that has an item, with all the wire values of that name.  If
    the directory refuses, the error is returned, the id stays as it was and
    nothing is read; otherwise the id becomes the DN and the entry is read
    back. *)
Theorem objectCreate_sends (st : State) skip sel f :
  skip_attributes (d st) = Some skip →
  select_attributes (d st) = Some sel →
  object_classes (d st) = Some f →
  let S := Field_Get (attributes (d st)) in
  ∃ names,
    NoDup names
    ∧ (∀ k, k ∈ names
            ↔ shouldSkipAttribute ("objectClass" :: schema.List skip) (schema.List sel) k
              = false
              ∧ ∃ v, (k, v) ∈ schema.List S)
    ∧ let request :=
        {| ldap.AddRequest_DN := dn (d st);
           ldap.AddRequest_Attributes :=
             {| ldap.Attribute_Type := "objectClass";
                ldap.Attribute_Vals := schema.List (Field_Get f) |}
             :: ((λ k, {| ldap.Attribute_Type := k;
                          ldap.Attribute_Vals := toAttributeValue k <$> valuesUnder k S |})
                   <$> names) |} in
      resourceLDAPObjectCreate meta st
      = match ldap.Add_ meta (sent st) request with
        | Some err => Returned (Some err) (afterSending (ldap.AddOf request) st)
        | None =>
          resourceLDAPObjectRead meta
            {| d := with_Id (dn (d st)) (d st);
               sent := sent st ++ [ldap.AddOf request] |}
        end.
Proof.
  intros Hskip Hsel Hoc. cbv zeta.
  destruct (objectCreate_request (dn (d st)) (schema.List (Field_Get f))
              ("objectClass" :: schema.List skip) (schema.List sel)
              (Field_Get (attributes (d st)))) as [Hreq [Hnd Hnames]].
  eexists. split; [exact Hnd|]. split; [exact Hnames|].
  unfold resourceLDAPObjectCreate. run. rewrite Hoc.
  cbn [fmap option_fmap option_map]. run. rewrite Hskip. run. rewrite Hsel. run.
  unfold Field_Get in Hreq. cbn [app] in *. rewrite Hreq. unfold afterSending.
  by destruct (ldap.Add_ meta _ _).
Qed.

(** X9.  The read, the creation and the diff of [ldap_object] apply one
    filter: every item that the read keeps has a name that
    [shouldSkipAttribute] lets through; the creation collects values under
    exactly the names that it lets through and that have an item; and every
    directive that the diff appends has such a name. *)
Theorem filter_agreement (attributesToSkip attributesToSet : list string) :
  (∀ dn attrs x,
     x ∈ schema.List (readAttributes dn attributesToSkip attributesToSet attrs) →
     shouldSkipAttribute attributesToSkip attributesToSet x.1 = false)
  ∧ (∀ (l : list Item) k,
       is_Some (createAttributes attributesToSkip attributesToSet l !! k)
       ↔ shouldSkipAttribute attributesToSkip attributesToSet k = false
         ∧ ∃ v, (k, v) ∈ l)
  ∧ (∀ modify (os ns : AttributeSet) c,
       c ∈ ldap.Changes (computeAndAddDeltas modify os ns attributesToSkip attributesToSet) →
       c ∈ ldap.Changes modify
       ∨ shouldSkipAttribute attributesToSkip attributesToSet (nameOf c) = false).
Proof.
  split; [|split].
  - intros dn attrs x [code Hx]%elem_of_List.
    apply readAttributes_Some in Hx as [a [v [_ [Hk [_ ->]]]]].
    apply andb_true_iff in Hk as [Hk _]. unfold readable in Hk. cbn.
    rewrite shouldSkipAttribute_eq. apply andb_true_iff in Hk as [Hk1 Hk2].
    apply negb_true_iff in Hk1, Hk2. by rewrite Hk1, Hk2.
  - intros l k. rewrite createAttributes_lookup.
    destruct (shouldSkipAttribute _ _ k).
    + split; [by intros [? ?]|by intros [? ?]].
    + destruct (valuesOf k l) eqn:Hvs.
      * split; [by intros [? ?]|]. intros [_ Hex]. by apply valuesOf_nil_iff in Hvs.
      * split; [|by eexists]. intros _. split; [done|].
        destruct (decide (k ∈ namesOf l)) as [Hy|Hn]; [by apply elem_of_namesOf|].
        rewrite elem_of_namesOf in Hn. apply valuesOf_nil_iff in Hn. congruence.
  - intros modify os ns c. rewrite computeAndAddDeltas_spec. cbn.
    intros [Hc|Hc]%elem_of_app; [by left|]. right.
    pose proof (deltas_tracked os ns attributesToSkip attributesToSet) as Ht.
    rewrite Forall_forall in Ht. by apply Ht.
Qed.
End object_ops.

Section more_ops.
Context `{!GoRuntime} (meta : ldap.Conn).

Lemma sent_after_modify_and_read (read : M (option ldap.error)) m st req :
  (∀ st0, ∃ q, sent (final (read st0)) = sent st0 ++ [ldap.SearchOf q]) →
  ldap.ModifyOf req
    ∈ sent (final
        ((if (0 <? length (ldap.Changes m))%nat
          then λ st1 : State,
                 match ldap.Modify meta (sent st1) m with
                 | Some err => λ st2 : State, Returned (Some err) st2
                 | None => read
                 end {| d := d st1; sent := sent st1 ++ [ldap.ModifyOf m] |}
          else read) st)) →
  ldap.ModifyOf req ∈ sent st ∨ (req = m ∧ ldap.Changes m ≠ []).
Proof.
  intros Hread. destruct (ldap.Changes m) eqn:Hm; cbn [length Nat.ltb Nat.leb].
  - destruct (Hread st) as [q ->]. intros [?|Hin]%elem_of_app; [by left|].
    apply list_elem_of_singleton in Hin. done.
  - destruct (ldap.Modify meta _ _); cbn.
    + intros [?|Hin]%elem_of_app; [by left|].
      apply list_elem_of_singleton in Hin as [= ->]. right. split; [done|congruence].
    + match goal with |- context [read ?s] => destruct (Hread s) as [q ->] end.
      cbn. rewrite <- app_assoc. intros [?|Hin]%elem_of_app; [by left|].
      apply elem_of_cons in Hin as [[= ->]|Hin]; [right; split; [done|congruence]|].
      apply list_elem_of_singleton in Hin. done.
Qed.

(** X17.  No update and no deletion sends a modify request without a
    change: a modify request that the update of [ldap_object], or the update
    or the deletion of [ldap_object_attributes], has sent holds at least one
    change.  (The creation of [ldap_object_attributes] does send an empty
    one, see X12.) *)
Theorem no_empty_modify (st : State) req :
  (ldap.ModifyOf req ∈ sent (final (resourceLDAPObjectUpdate meta st)) →
   ldap.ModifyOf req ∈ sent st ∨ ldap.Changes req ≠ [])
  ∧ (ldap.ModifyOf req
       ∈ sent (final (ObjectAttributes.resourceLDAPObjectAttributesUpdate meta st)) →
     ldap.ModifyOf req ∈ sent st ∨ ldap.Changes req ≠ [])
  ∧ (ldap.ModifyOf req
       ∈ sent (final (ObjectAttributes.resourceLDAPObjectAttributesDelete meta st)) →
     ldap.ModifyOf req ∈ sent st ∨ ldap.Changes req ≠ []).
Proof.
  split_and!.
  - unfold resourceLDAPObjectUpdate. run.
    destruct (skip_attributes (d st)) as [skip|]; run; [|by left].
    destruct (select_attributes (d st)) as [sel|]; run; [|by left].
    assert (∀ st0, ∃ q, sent (final (resourceLDAPObjectRead meta st0))
                        = sent st0 ++ [ldap.SearchOf q]) as Hread
      by (intros st0; eexists; apply resourceLDAPObjectRead_sent).
    destruct (object_classes (d st)) as [f|] eqn:Hoc; run.
    + destruct (schema.Equal (prior f) (planned f)); cbn [negb]; run;
        rewrite ?Hoc; cbn [fmap option_fmap option_map]; run;
        destruct (schema.Equal _ _); cbn [negb]; run;
        intros Hin; apply (sent_after_modify_and_read _ _ _ _ Hread) in Hin
          as [?|[-> ?]]; tauto.
    + destruct (schema.Equal _ _); cbn [negb]; run;
        intros Hin; apply (sent_after_modify_and_read _ _ _ _ Hread) in Hin
          as [?|[-> ?]]; tauto.
  - unfold ObjectAttributes.resourceLDAPObjectAttributesUpdate. run.
    assert (∀ st0, ∃ q,
              sent (final (ObjectAttributes.resourceLDAPObjectAttributesRead meta st0))
              = sent st0 ++ [ldap.SearchOf q]) as Hread
      by (intros st0; eexists; apply attributesRead_sent).
    destruct (schema.Equal _ _); cbn [negb]; run;
      intros Hin; apply (sent_after_modify_and_read _ _ _ _ Hread) in Hin
        as [?|[-> ?]]; tauto.
  - unfold ObjectAttributes.resourceLDAPObjectAttributesDelete. run.
    destruct (ldap.Changes _) eqn:Hc; cbn [length Nat.ltb Nat.leb]; run; [by left|].
    destruct (ldap.Modify meta _ _); cbn;
      (intros [?|Hin]%elem_of_app; [by left|]);
      apply list_elem_of_singleton in Hin as [= ->]; right; congruence.
Qed.

(** After a read of ldap_object returned nil, the DN is what it was and the
    id is the DN, or empty. *)
Lemma readLDAPObject_id (updateState : bool) st st' :
  readLDAPObject meta updateState st = Returned None st' →
  dn (d st') = dn (d st) ∧ (Id (d st') = dn (d st) ∨ Id (d st') = "").
Proof.
  unfold readLDAPObject. run.
  destruct (ldap.Search meta _ _) as [sr|err]; run.
  - destruct (ldap.Entries sr); run; [done|].
    destruct (object_classes (d st)); run;
      destruct (skip_attributes (d st)); run; try done;
      destruct (select_attributes (d st)); run; try done;
      intros [= <-]; cbn; by split; [|left].
  - destruct (noSuchObject err && updateState); run; [|done].
    intros [= <-]. cbn. by split; [|right].
Qed.


End more_ops.

(** ** The range of the hash *)

Lemma lxor_below (n a b : Z) :
  0 < n → 0 ≤ a < 2 ^ n → 0 ≤ b < 2 ^ n → 0 ≤ Z.lxor a b < 2 ^ n.
Proof.
  intros Hn [Ha Ha'] [Hb Hb']. split; [by apply Z.lxor_nonneg|].
  destruct (decide (Z.lxor a b = 0)) as [->|Hne]; [apply Z.pow_pos_nonneg; lia|].
  assert (0 ≤ Z.lxor a b) by (by apply Z.lxor_nonneg).
  apply Z.log2_lt_pow2; [lia|].
  pose proof (Z.log2_lxor a b Ha Hb).
  assert (Z.log2 a < n).
  { destruct (decide (a = 0)) as [->|]; [cbn; lia|]. apply Z.log2_lt_pow2; lia. }
  assert (Z.log2 b < n).
  { destruct (decide (b = 0)) as [->|]; [cbn; lia|]. apply Z.log2_lt_pow2; lia. }
  lia.
Qed.

Lemma crc32_shift_below (c : Z) :
  0 ≤ c < 2 ^ 32 → 0 ≤ crc32_shift c < 2 ^ 32.
Proof.
  intros Hc. unfold crc32_shift.
  assert (0 ≤ Z.shiftr c 1 < 2 ^ 32).
  { rewrite Z.shiftr_div_pow2 by lia. change (2 ^ 1) with 2.
    split; [apply Z.div_pos; lia|].
    apply Z.div_lt_upper_bound; lia. }
  destruct (Z.testbit c 0); [|done]. apply lxor_below; [lia|done|lia].
Qed.

Lemma byte_of_below (a : ascii) : 0 ≤ byte_of a < 256.
Proof.
  unfold byte_of. pose proof (N_ascii_bounded a). lia.
Qed.

Lemma crc32_update_below (c b : Z) :
  0 ≤ c < 2 ^ 32 → 0 ≤ b < 256 → 0 ≤ crc32_update c b < 2 ^ 32.
Proof.
  intros Hc Hb. unfold crc32_update.
  assert (0 ≤ Z.lxor c b < 2 ^ 32) as Hx by (apply lxor_below; lia).
  generalize dependent (Z.lxor c b). intros x Hx.
  do 8 (apply crc32_shift_below in Hx). exact Hx.
Qed.

Lemma ChecksumIEEE_below (data : string) : 0 ≤ ChecksumIEEE data < 2 ^ 32.
Proof.
  unfold ChecksumIEEE. apply lxor_below; [lia| |lia].
  assert (0 ≤ 0xFFFFFFFF < 2 ^ 32) as Hc by lia.
  generalize dependent 0xFFFFFFFF. unfold bytes.
  induction (list_ascii_of_string data) as [|a l IH]; intros c Hc; [done|].
  cbn. apply IH. apply crc32_update_below; [done|apply byte_of_below].
Qed.

(** X20.  The hash code of an item is the CRC-32 of its rendering, a
    number from 0 to 2^32 - 1: with 64-bit [int] the conversion never wraps,
    and neither the negation nor the fallback to 0 of [attributeHash] is
    ever reached. *)
Theorem attributeHash_is_the_checksum `{!GoRuntime} (m : Item) :
  attributeHash m
  = ChecksumIEEE (("map {" +:+ (Quote m.1 +:+ " := " +:+ Quote m.2 +:+ ";")) +:+ "}")
  ∧ 0 ≤ attributeHash m < 2 ^ 32.
Proof.
  unfold attributeHash. cbv zeta.
  set (buffer := String.append _ _).
  pose proof (ChecksumIEEE_below buffer) as Hc.
  assert (int (ChecksumIEEE buffer) = ChecksumIEEE buffer) as ->.
  { unfold int. rewrite Z.mod_small by lia.
    destruct (Z.ltb_spec (ChecksumIEEE buffer) (2 ^ 63)); lia. }
  destruct (Z.leb_spec 0 (ChecksumIEEE buffer)); [|lia].
  done.
Qed.

Section import.
Context `{!GoRuntime} (meta : ldap.Conn).

Lemma readLDAPObject_returns (updateState : bool) st r st' :
  readLDAPObject meta updateState st = Returned r st' →
  dn (d st') = dn (d st)
  ∧ match r with
    | None => Id (d st') = dn (d st) ∨ (Id (d st') = "" ∧ d st' = with_Id "" (d st))
    | Some err => ldap.Search meta (sent st) (readRequest (dn (d st))) = inr err
    end.
Proof.
  unfold readLDAPObject. run. fold (readRequest (dn (d st))).
  destruct (ldap.Search meta _ _) as [sr|err]; run.
  - destruct (ldap.Entries sr); run; [done|].
    destruct (object_classes (d st)); run;
      destruct (skip_attributes (d st)); run; try done;
      destruct (select_attributes (d st)); run; try done;
      intros [= <- <-]; cbn; by split; [|left].
  - destruct (noSuchObject err && updateState); run.
    + intros [= <- <-]. cbn. split; [done|]. by right.
    + by intros [= <- <-].
Qed.

(** X19.  The import of [ldap_object] takes the id for the DN: when it
    returns, the one resource it returns is the resource data as the read
    left them, their DN is the id that was given, and exactly one search was
    sent, for that DN.  Without an error the id is still the given one, or
    empty (the entry was not found); an error is the error of the search,
    under the message "Reading ldap object". *)
Theorem import_reads_the_id (st st' : State) res err :
  resourceLDAPObjectImport meta st = Returned (res, err) st' →
  res = [d st']
  ∧ dn (d st') = Id (d st)
  ∧ sent st' = sent st ++ [ldap.SearchOf (readRequest (Id (d st)))]
  ∧ match err with
    | None => Id (d st') = Id (d st) ∨ Id (d st') = ""
    | Some e =>
      ldap.Search meta (sent st) (readRequest (Id (d st))) = inr (errors.cause e)
      ∧ errors.msg e = "Reading ldap object"
    end.
Proof.
  unfold resourceLDAPObjectImport, Set_dn, resourceLDAPObjectRead. run.
  set (st0 := {| d := with_dn (Id (d st)) (d st); sent := sent st |}).
  pose proof (readLDAPObject_sent meta true st0) as Hsent.
  destruct (readLDAPObject meta true st0) as [r st1|st1] eqn:Hread; run; [|done].
  intros [= <- <- <-]. apply readLDAPObject_returns in Hread as [Hdn Hr].
  cbn in Hsent, Hdn, Hr. split_and!; try done.
  destruct r as [e|]; cbn; [done|]. destruct Hr as [?|[? _]]; auto.
Qed.
End import.

Section depth.
Variable mapLower : string → string.

Lemma normalizeSearchDepth_hit order search v :
  (∀ e, e ∈ order → searchAlternates mapLower (ToLower mapLower search) e.2 = true → e.1 = v) →
  (∃ e, e ∈ order ∧ searchAlternates mapLower (ToLower mapLower search) e.2 = true) →
  normalizeSearchDepth mapLower order search = v.
Proof.
  unfold normalizeSearchDepth. cbv zeta. generalize (ToLower mapLower search). intros l.
  induction order as [|[val alternates] order IH]; intros Hall [e [He Hhit]].
  - by apply elem_of_nil in He.
  - destruct (searchAlternates mapLower l alternates) eqn:Ha.
    + apply (Hall (val, alternates)); [left|done].
    + apply IH.
      * intros e' He'. apply Hall. by right.
      * apply elem_of_cons in He as [->|He]; [cbn in Hhit; congruence|]. eauto.
Qed.

Lemma normalizeSearchDepth_miss order search :
  (∀ e, e ∈ order → searchAlternates mapLower (ToLower mapLower search) e.2 = false) →
  normalizeSearchDepth mapLower order search = -1.
Proof.
  unfold normalizeSearchDepth. cbv zeta. generalize (ToLower mapLower search). intros l.
  induction order as [|[val alternates] order IH]; intros Hall; [done|].
  pose proof (Hall (val, alternates) ltac:(left)) as Hv. cbn in Hv. rewrite Hv.
  apply IH. intros e He. apply Hall. by right.
Qed.

Lemma searchAlternates_true l alternates :
  searchAlternates mapLower l alternates = true ↔ l ∈ (ToLower mapLower <$> alternates).
Proof.
  induction alternates as [|a alternates IH]; cbn.
  - split; [done|]. by intros ?%elem_of_nil.
  - rewrite elem_of_cons, <- IH. destruct (String.eqb_spec (ToLower mapLower a) l).
    + naive_solver.
    + naive_solver.
Qed.

(** X21.  [normalizeSearchDepth] depends on the lower-cased name only, and
    not on the order in which the map of depths is ranged over: sub, subtree
    and wholesubtree give 2 (whole subtree), base and baseobject 0, one and
    singlelevel 1, in any mix of upper and lower case, and every other name
    gives -1. *)
Theorem normalizeSearchDepth_by_name order search :
  order ≡ₚ SEARCH_DEPTHS →
  normalizeSearchDepth mapLower order search = scopeOf (ToLower mapLower search).
Proof.
  intros Hperm. unfold scopeOf.
  assert (∀ e, e ∈ order ↔ e ∈ SEARCH_DEPTHS) as Hin
    by (intros e; by rewrite Hperm).
  assert (∀ e l, e ∈ SEARCH_DEPTHS →
            searchAlternates mapLower l e.2 = true →
            (e.1 = 2 ∧ l ∈ ["sub"; "subtree"; "wholesubtree"])
            ∨ (e.1 = 0 ∧ l ∈ ["base"; "baseobject"])
            ∨ (e.1 = 1 ∧ l ∈ ["one"; "singlelevel"])) as Hcase.
  { intros e l He Hhit. apply searchAlternates_true in Hhit.
    unfold SEARCH_DEPTHS in He. rewrite !elem_of_cons in He.
    destruct He as [->|[->|[->|He]]]; [| | |by apply elem_of_nil in He];
      cbn in *; tauto. }
  assert (∀ l v names, (v, names) ∈ SEARCH_DEPTHS → l ∈ (ToLower mapLower <$> names) →
            ∃ e, e ∈ order ∧ searchAlternates mapLower l e.2 = true) as Hex.
  { intros l v names He Hl. exists (v, names). split; [by apply Hin|].
    by apply searchAlternates_true. }
  set (l := ToLower mapLower search).
  assert (∀ x, x ∈ ["sub"; "subtree"; "wholesubtree"] →
               (x ∉ ["base"; "baseobject"]) ∧ (x ∉ ["one"; "singlelevel"])) as Hd1.
  { intros x Hx. rewrite !elem_of_cons in Hx. rewrite !elem_of_cons.
    destruct Hx as [->|[->|[->|Hx]]]; [| | |by apply elem_of_nil in Hx];
      (split; intros [?|[?|?%elem_of_nil]]; done). }
  assert (∀ x, x ∈ ["base"; "baseobject"] → x ∉ ["one"; "singlelevel"]) as Hd2.
  { intros x Hx. rewrite !elem_of_cons in Hx. rewrite !elem_of_cons.
    destruct Hx as [->|[->|Hx]]; [| |by apply elem_of_nil in Hx];
      (intros [?|[?|?%elem_of_nil]]; done). }
  destruct (decide (l ∈ ["sub"; "subtree"; "wholesubtree"])) as [H2|H2];
    [|destruct (decide (l ∈ ["base"; "baseobject"])) as [H0|H0];
      [|destruct (decide (l ∈ ["one"; "singlelevel"])) as [H1|H1]]].
  - apply normalizeSearchDepth_hit.
    + intros e He Hhit. apply Hin in He.
      destruct (Hcase e l He Hhit) as [[? ?]|[[? ?]|[? ?]]]; [done| |];
        destruct (Hd1 l H2); done.
    + apply (Hex l 2 ["sub"; "subtree"; "wholeSubtree"]); [left|done].
  - apply normalizeSearchDepth_hit.
    + intros e He Hhit. apply Hin in He.
      destruct (Hcase e l He Hhit) as [[? ?]|[[? ?]|[? ?]]]; [done|done|].
      by destruct (Hd2 l H0).
    + apply (Hex l 0 ["base"; "baseObject"]); [right; left|done].
  - apply normalizeSearchDepth_hit.
    + intros e He Hhit. apply Hin in He.
      destruct (Hcase e l He Hhit) as [[? ?]|[[? ?]|[? ?]]]; done.
    + apply (Hex l 1 ["one"; "singleLevel"]); [right; right; left|done].
  - apply normalizeSearchDepth_miss. intros e He. apply Hin in He.
    destruct (searchAlternates mapLower l e.2) eqn:Hhit; [|done].
    destruct (Hcase e l He Hhit) as [[? ?]|[[? ?]|[? ?]]]; done.
Qed.

End depth.

Lemma normalizeSearchDepth_by_name_witness :
  reverse SEARCH_DEPTHS ≡ₚ SEARCH_DEPTHS
  ∧ normalizeSearchDepth id (reverse SEARCH_DEPTHS) "SubTree" = 2.
Proof.
  split; [apply reverse_Permutation|].
  apply (normalizeSearchDepth_by_name id (reverse SEARCH_DEPTHS) "SubTree").
  apply reverse_Permutation.
Defined.


Lemma attributesRead_stores_owned_live_witness :
  written (attributes (d (final (@ObjectAttributes.resourceLDAPObjectAttributesRead
                                   exampleRuntime (directoryOf withClasses)
                                   mailAttributes))))
  = Some ownedMail
  ∧ ownedMail ≠ ∅.
Proof.
  assert (written (attributes (d (final (@ObjectAttributes.resourceLDAPObjectAttributesRead
                                           exampleRuntime (directoryOf withClasses)
                                           mailAttributes))))
          = Some ownedMail) as Hread by (vm_compute; reflexivity).
  split; [exact Hread|].
  destruct (@attributesRead_stores_owned_live exampleRuntime (directoryOf withClasses)
              mailAttributes ownedMail Hread) as [Hold|[Hne _]].
  - discriminate Hold.
  - exact Hne.
Defined.

Lemma objectUpdate_composes_witness :
  @resourceLDAPObjectUpdate exampleRuntime (directoryOf withClasses) mailObject
  = @resourceLDAPObjectRead exampleRuntime (directoryOf withClasses)
      (afterSending
         (ldap.ModifyOf {| ldap.DN := "cn=foo,dc=x";
                           ldap.Changes := [AddChange "mail" ["a@x"]] |})
         mailObject).
Proof.
  rewrite (@objectUpdate_composes exampleRuntime (directoryOf withClasses) mailObject
             ∅ ∅ {| prior := ∅; planned := ∅; written := None |}
             eq_refl eq_refl eq_refl).
  vm_compute. reflexivity.
Defined.

Lemma objectCreate_sends_witness :
  ∃ names,
    NoDup names
    ∧ @resourceLDAPObjectCreate exampleRuntime (directoryOf withClasses) mailObject
      = @resourceLDAPObjectRead exampleRuntime (directoryOf withClasses)
          {| d := with_Id "cn=foo,dc=x" (d mailObject);
             sent :=
               [ldap.AddOf
                  {| ldap.AddRequest_DN := "cn=foo,dc=x";
                     ldap.AddRequest_Attributes :=
                       {| ldap.Attribute_Type := "objectClass";
                          ldap.Attribute_Vals := [] |}
                       :: ((λ k, {| ldap.Attribute_Type := k;
                                    ldap.Attribute_Vals :=
                                      @toAttributeValue exampleRuntime k
                                        <$> valuesUnder k ownedMail |})
                             <$> names) |}] |}.
Proof.
  destruct (@objectCreate_sends exampleRuntime (directoryOf withClasses) mailObject
              ∅ ∅ {| prior := ∅; planned := ∅; written := None |}
              eq_refl eq_refl eq_refl) as [names [Hnd [_ Hrun]]].
  exists names. split; [exact Hnd|]. exact Hrun.
Defined.


Lemma no_empty_modify_witness :
  ldap.ModifyOf {| ldap.DN := "cn=foo,dc=x";
                   ldap.Changes := [AddChange "mail" ["a@x"]] |}
    ∈ sent (final (@resourceLDAPObjectUpdate exampleRuntime (directoryOf withClasses)
                     mailObject))
  ∧ (ldap.ModifyOf {| ldap.DN := "cn=foo,dc=x";
                      ldap.Changes := [AddChange "mail" ["a@x"]] |}
       ∈ sent mailObject
     ∨ [AddChange "mail" ["a@x"]] ≠ []).
Proof.
  assert (ldap.ModifyOf {| ldap.DN := "cn=foo,dc=x";
                           ldap.Changes := [AddChange "mail" ["a@x"]] |}
            ∈ sent (final (@resourceLDAPObjectUpdate exampleRuntime
                             (directoryOf withClasses) mailObject))) as Hin
    by (vm_compute; left).
  split; [exact Hin|].
  exact (proj1 (@no_empty_modify exampleRuntime (directoryOf withClasses) mailObject _) Hin).
Defined.

Lemma import_reads_the_id_witness :
  dn (d (final (@resourceLDAPObjectImport exampleRuntime (directoryOf withClasses)
                  {| d := with_dn "" (d mailObject); sent := [] |})))
  = "cn=foo,dc=x".
Proof.
  refine (proj1 (proj2
    (@import_reads_the_id exampleRuntime (directoryOf withClasses)
       {| d := with_dn "" (d mailObject); sent := [] |}
       (final (@resourceLDAPObjectImport exampleRuntime (directoryOf withClasses)
                 {| d := with_dn "" (d mailObject); sent := [] |}))
       _ None _))).
  vm_compute. reflexivity.
Defined.
